(** * annotatOS: boot loaders, heap, screen, keyboard and process manager

    A shallow embedding of the parts of the annotatOS sources that the
    specification makes checkable promises about:

    - [Boot]:     the two stage-1 boot sectors ([boot.asm], [boot/boot.asm]),
                  run on a small model of the 16-bit real-mode instructions
                  they use and of the two firmware services they call;
    - [Screen]:   the VGA text driver ([screen.c]);
    - [Keyboard]: the IRQ1 keyboard driver and its ring buffer ([keyboard.c]);
    - [Memory]:   the first-fit heap ([memory.c]);
    - [Process]:  the process list ([process.c]). *)

From stdpp Require Import gmap list strings.
From Stdlib Require Import ZArith Lia.

Local Open Scope Z_scope.

(** ** Fixed-width arithmetic shared by all modules *)

Definition wrap8 (x : Z) : Z := x mod 256.
Definition wrap16 (x : Z) : Z := x mod 65536.
Definition wrap32 (x : Z) : Z := x mod 4294967296.

(** The bytes of a string literal, as the assembler and the C compiler
    lay them out. *)
Fixpoint bytes_of (s : string) : list Z :=
  match s with
  | EmptyString => []
  | String c s' => Z.of_nat (Ascii.nat_of_ascii c) :: bytes_of s'
  end.

(** Iterating a step function. *)
Fixpoint iter {A : Type} (n : nat) (f : A -> A) (a : A) : A :=
  match n with
  | O => a
  | S n' => iter n' f (f a)
  end.

(** ** The stage-1 boot loaders *)

Module Boot.

(** *** Machine state *)

(** Byte registers, word registers and segment registers.  AX, CX, DX and
    BX are the byte pairs AH:AL, CH:CL, DH:DL and BH:BL; the register file
    keeps one cell per byte register and per remaining word register. *)
Inductive reg8 := AL | AH | CL | CH | DL | DH | BL | BH.
Inductive reg16 := AX | CX | DX | BX | SP | BP | SI | DI.
Inductive sreg := DS | ES | SS.

Inductive cell :=
| C8 (r : reg8)
| CSP | CBP | CSI | CDI
| CSeg (r : sreg).

Definition cell_index (c : cell) : nat :=
  match c with
  | C8 AL => 0 | C8 AH => 1 | C8 CL => 2 | C8 CH => 3
  | C8 DL => 4 | C8 DH => 5 | C8 BL => 6 | C8 BH => 7
  | CSP => 8 | CBP => 9 | CSI => 10 | CDI => 11
  | CSeg DS => 12 | CSeg ES => 13 | CSeg SS => 14
  end%nat.

(** A stack slot holds a data word (as its two bytes) or the return
    address pushed by [call] (as the index of the instruction returned to). *)
Inductive slot :=
| Word (hi lo : Z)
| Ret (ra : nat).

(** The registers of an INT 13h, AH=02h (read sectors) request. *)
Record disk_request := mkRequest {
  req_count : Z;      (* AL *)
  req_cylinder : Z;   (* CH *)
  req_sector : Z;     (* CL *)
  req_head : Z;       (* DH *)
  req_drive : Z;      (* DL *)
  req_segment : Z;    (* ES *)
  req_offset : Z      (* BX *)
}.

Record state := mkState {
  ip : nat;                 (* index of the next instruction *)
  regs : list Z;            (* register file, indexed by [cell_index] *)
  cf : bool;
  zf : bool;
  iflag : bool;             (* interrupt-enable flag *)
  halted : bool;            (* stopped in [hlt] *)
  left_to : option Z;       (* control was transferred to this address,
                               outside the boot sector *)
  fault : bool;             (* the machine met something outside this model *)
  data : list Z;            (* the sector's data region *)
  stack : list slot;
  tty : list Z;             (* characters given to the teletype service *)
  reads : list disk_request (* requests made to the disk service *)
}.

Definition getc (c : cell) (s : state) : Z := regs s !!! cell_index c.

Definition setc (c : cell) (v : Z) (s : state) : state :=
  mkState (ip s) (<[cell_index c := v]> (regs s)) (cf s) (zf s) (iflag s)
          (halted s) (left_to s) (fault s) (data s) (stack s) (tty s) (reads s).

Definition get8 (r : reg8) (s : state) : Z := getc (C8 r) s.
Definition set8 (r : reg8) (v : Z) (s : state) : state := setc (C8 r) v s.

Definition hi8 (v : Z) : Z := wrap8 (v / 256).
Definition lo8 (v : Z) : Z := wrap8 v.
Definition word (hi lo : Z) : Z := hi * 256 + lo.

Definition get16 (r : reg16) (s : state) : Z :=
  match r with
  | AX => word (get8 AH s) (get8 AL s)
  | CX => word (get8 CH s) (get8 CL s)
  | DX => word (get8 DH s) (get8 DL s)
  | BX => word (get8 BH s) (get8 BL s)
  | SP => getc CSP s | BP => getc CBP s
  | SI => getc CSI s | DI => getc CDI s
  end.

Definition set16 (r : reg16) (v : Z) (s : state) : state :=
  match r with
  | AX => set8 AH (hi8 v) (set8 AL (lo8 v) s)
  | CX => set8 CH (hi8 v) (set8 CL (lo8 v) s)
  | DX => set8 DH (hi8 v) (set8 DL (lo8 v) s)
  | BX => set8 BH (hi8 v) (set8 BL (lo8 v) s)
  | SP => setc CSP (wrap16 v) s | BP => setc CBP (wrap16 v) s
  | SI => setc CSI (wrap16 v) s | DI => setc CDI (wrap16 v) s
  end.

Definition set_ip (n : nat) (s : state) : state :=
  mkState n (regs s) (cf s) (zf s) (iflag s) (halted s) (left_to s)
          (fault s) (data s) (stack s) (tty s) (reads s).

Definition set_flags (c z : bool) (s : state) : state :=
  mkState (ip s) (regs s) c z (iflag s) (halted s) (left_to s)
          (fault s) (data s) (stack s) (tty s) (reads s).

Definition set_iflag (b : bool) (s : state) : state :=
  mkState (ip s) (regs s) (cf s) (zf s) b (halted s) (left_to s)
          (fault s) (data s) (stack s) (tty s) (reads s).

Definition set_halted (s : state) : state :=
  mkState (ip s) (regs s) (cf s) (zf s) (iflag s) true (left_to s)
          (fault s) (data s) (stack s) (tty s) (reads s).

Definition leave_to (a : Z) (s : state) : state :=
  mkState (ip s) (regs s) (cf s) (zf s) (iflag s) (halted s) (Some a)
          (fault s) (data s) (stack s) (tty s) (reads s).

Definition set_fault (s : state) : state :=
  mkState (ip s) (regs s) (cf s) (zf s) (iflag s) (halted s) (left_to s)
          true (data s) (stack s) (tty s) (reads s).

Definition set_data (d : list Z) (s : state) : state :=
  mkState (ip s) (regs s) (cf s) (zf s) (iflag s) (halted s) (left_to s)
          (fault s) d (stack s) (tty s) (reads s).

Definition set_stack (k : list slot) (s : state) : state :=
  mkState (ip s) (regs s) (cf s) (zf s) (iflag s) (halted s) (left_to s)
          (fault s) (data s) k (tty s) (reads s).

Definition log_read (q : disk_request) (s : state) : state :=
  mkState (ip s) (regs s) (cf s) (zf s) (iflag s) (halted s) (left_to s)
          (fault s) (data s) (stack s) (tty s) (reads s ++ [q]).

Definition put_tty (c : Z) (s : state) : state :=
  mkState (ip s) (regs s) (cf s) (zf s) (iflag s) (halted s) (left_to s)
          (fault s) (data s) (stack s) (tty s ++ [c]) (reads s).

(** *** Instructions and assembly sources *)

(** The instructions the two boot sectors use.  Jump and call targets and
    data operands are the labels of the source. *)
Inductive instr :=
| mov_mem_r8 (m : string) (r : reg8)       (* mov [m], r8 *)
| mov_r8_mem (r : reg8) (m : string)       (* mov r8, [m] *)
| mov_r8_imm (r : reg8) (v : Z)            (* mov r8, imm *)
| mov_r16_imm (r : reg16) (v : Z)          (* mov r16, imm *)
| mov_r16_lbl (r : reg16) (m : string)     (* mov r16, m *)
| mov_sreg_r16 (sr : sreg) (r : reg16)     (* mov sreg, r16 *)
| xor_r16 (d r : reg16)
| or_r8 (d r : reg8)
| test_r8 (a b : reg8)
| cmp_r8_imm (r : reg8) (v : Z)
| cli | sti | hlt
| pusha | popa | lodsb
| int (n : Z)
| call (l : string) | ret
| jmp (l : string)
| jmp_abs (a : Z)                          (* jmp KERNEL_OFFSET *)
| jmp_here                                 (* jmp $ *)
| jz (l : string) | jc (l : string) | jne (l : string).

Inductive line :=
| Label (l : string)
| Ins (i : instr)
| Db (l : string) (bytes : list Z).

(** Index of a code label in the source. *)
Fixpoint find_label (l : string) (src : list line) : option nat :=
  match src with
  | [] => None
  | Label l' :: rest =>
      if String.eqb l l' then Some O else S <$> find_label l rest
  | _ :: rest => S <$> find_label l rest
  end.

(** The data region is the [db] lines in source order; data addresses are
    counted from its first byte. *)
Fixpoint data_of (src : list line) : list Z :=
  match src with
  | [] => []
  | Db _ bytes :: rest => bytes ++ data_of rest
  | _ :: rest => data_of rest
  end.

Fixpoint data_offset (m : string) (src : list line) : option Z :=
  match src with
  | [] => None
  | Db m' bytes :: rest =>
      if String.eqb m m' then Some 0
      else (fun o => Z.of_nat (length bytes) + o) <$> data_offset m rest
  | _ :: rest => data_offset m rest
  end.

(** *** Firmware services *)

(** What the disk service leaves in CF, AH and AL.
    [resp_ah] and [resp_al] are the contents of the two byte registers
    on return: the status and the number of sectors transferred. *)
Record disk_response := mkResponse {
  resp_cf : bool;
  resp_ah : Z;
  resp_al : Z
}.

(** The platform the boot sector runs on: the firmware disk service and
    whether [hlt] really stops the processor. *)
Record platform := mkPlatform {
  disk_read : disk_request -> disk_response;
  hlt_stops : bool
}.

(** *** Execution *)

Definition next (s : state) : state := set_ip (S (ip s)) s.

Definition goto (src : list line) (l : string) (s : state) : state :=
  match find_label l src with
  | Some n => set_ip n s
  | None => set_fault s
  end.

Definition push (w : slot) (s : state) : state :=
  set_stack (w :: stack s) (setc CSP (wrap16 (getc CSP s - 2)) s).

Definition word_slot (v : Z) : slot := Word (hi8 v) (lo8 v).

Definition exec_pusha (s : state) : state :=
  let sp0 := getc CSP s in
  let s1 := push (Word (get8 AH s) (get8 AL s)) s in
  let s2 := push (Word (get8 CH s) (get8 CL s)) s1 in
  let s3 := push (Word (get8 DH s) (get8 DL s)) s2 in
  let s4 := push (Word (get8 BH s) (get8 BL s)) s3 in
  let s5 := push (word_slot sp0) s4 in
  let s6 := push (word_slot (getc CBP s)) s5 in
  let s7 := push (word_slot (getc CSI s)) s6 in
  push (word_slot (getc CDI s)) s7.

Definition exec_popa (s : state) : state :=
  match stack s with
  | Word dih dil :: Word sih sil :: Word bph bpl :: Word _ _ ::
    Word bh bl :: Word dh dl :: Word ch cl :: Word ah al :: rest =>
      let s1 := setc CDI (word dih dil) s in
      let s2 := setc CSI (word sih sil) s1 in
      let s3 := setc CBP (word bph bpl) s2 in
      let s4 := set8 BH bh (set8 BL bl s3) in
      let s5 := set8 DH dh (set8 DL dl s4) in
      let s6 := set8 CH ch (set8 CL cl s5) in
      let s7 := set8 AH ah (set8 AL al s6) in
      set_stack rest (setc CSP (wrap16 (getc CSP s + 16)) s7)
  | _ => set_fault s
  end.

Definition exec_int (pf : platform) (n : Z) (s : state) : state :=
  if n =? 16 then
    (* INT 10h: only teletype output, AH=0Eh *)
    if get8 AH s =? 14 then put_tty (get8 AL s) s else set_fault s
  else if n =? 19 then
    (* INT 13h: only read sectors, AH=02h *)
    if get8 AH s =? 2 then
      let q := mkRequest (get8 AL s) (get8 CH s) (get8 CL s) (get8 DH s)
                         (get8 DL s) (getc (CSeg ES) s) (get16 BX s) in
      let r := disk_read pf q in
      set_flags (resp_cf r) (zf s)
        (set8 AH (resp_ah r) (set8 AL (resp_al r) (log_read q s)))
    else set_fault s
  else set_fault s.

Definition exec (pf : platform) (src : list line) (i : instr) (s : state)
  : state :=
  match i with
  | mov_mem_r8 m r =>
      match data_offset m src with
      | Some o =>
          next (set_data (<[Z.to_nat (getc (CSeg DS) s * 16 + o) := get8 r s]>
                            (data s)) s)
      | None => set_fault s
      end
  | mov_r8_mem r m =>
      match data_offset m src with
      | Some o =>
          next (set8 r (data s !!! Z.to_nat (getc (CSeg DS) s * 16 + o)) s)
      | None => set_fault s
      end
  | mov_r8_imm r v => next (set8 r (wrap8 v) s)
  | mov_r16_imm SP v => next (set_stack [] (set16 SP v s))
  | mov_r16_imm r v => next (set16 r v s)
  | mov_r16_lbl r m =>
      match data_offset m src with
      | Some o => next (set16 r o s)
      | None => set_fault s
      end
  | mov_sreg_r16 sr r => next (setc (CSeg sr) (get16 r s) s)
  | xor_r16 d r =>
      let v := Z.lxor (get16 d s) (get16 r s) in
      next (set_flags false (v =? 0) (set16 d v s))
  | or_r8 d r =>
      let v := Z.lor (get8 d s) (get8 r s) in
      next (set_flags false (v =? 0) (set8 d v s))
  | test_r8 a b =>
      next (set_flags false (Z.land (get8 a s) (get8 b s) =? 0) s)
  | cmp_r8_imm r v =>
      next (set_flags (get8 r s <? wrap8 v) (get8 r s =? wrap8 v) s)
  | cli => next (set_iflag false s)
  | sti => next (set_iflag true s)
  | hlt =>
      (* with interrupts masked nothing wakes the processor again *)
      if hlt_stops pf && negb (iflag s) then set_halted s else next s
  | pusha => next (exec_pusha s)
  | popa => next (exec_popa s)
  | lodsb =>
      let a := getc (CSeg DS) s * 16 + getc CSI s in
      next (setc CSI (wrap16 (getc CSI s + 1))
              (set8 AL (data s !!! Z.to_nat a) s))
  | int n => next (exec_int pf n s)
  | call l => goto src l (push (Ret (S (ip s))) s)
  | ret =>
      match stack s with
      | Ret ra :: rest =>
          set_ip ra (set_stack rest (setc CSP (wrap16 (getc CSP s + 2)) s))
      | Word hi lo :: _ => leave_to (word hi lo) s
      | [] => set_fault s
      end
  | jmp l => goto src l s
  | jmp_abs a => leave_to a s
  | jmp_here => s
  | jz l => if zf s then goto src l s else next s
  | jc l => if cf s then goto src l s else next s
  | jne l => if zf s then next s else goto src l s
  end.

(** One step.  A state that halted, faulted or left the boot sector does
    not move any more. *)
Definition has_left (s : state) : bool :=
  match left_to s with Some _ => true | None => false end.

Definition step (pf : platform) (src : list line) (s : state) : state :=
  if halted s || fault s || has_left s then s
  else
    match src !! ip s with
    | Some (Ins i) => exec pf src i s
    | Some (Label _) => next s
    | Some (Db _ _) => set_fault s
    | None => set_fault s
    end.

Definition run (pf : platform) (src : list line) (n : nat) (s : state)
  : state := iter n (step pf src) s.

(** State at entry: the firmware has loaded the sector, passes the boot
    drive in DL and has interrupts enabled; execution starts at [start].
    The other registers are zero: both loaders store DL through DS before
    they load DS themselves, so the drive number they later read back is
    the firmware's only when DS is 0 at entry. *)
Definition entry (src : list line) (drive : Z) : state :=
  mkState (default O (find_label "start" src))
          (<[cell_index (C8 DL) := drive]> (replicate 15 0))
          false false true false None false (data_of src) [] [] [].

(** *** The two sources *)

Definition KERNEL_OFFSET : Z := 4096.

(** [boot.asm]: stage 1 of the protected-mode profile (Profile B); reads
    the 15 sectors of stage 2. *)
Definition boot_asm : list line := [
  Label "start";
    Ins (mov_mem_r8 "BOOT_DRIVE" DL);
    Ins cli;
    Ins (xor_r16 AX AX);
    Ins (mov_sreg_r16 DS AX);
    Ins (mov_sreg_r16 ES AX);
    Ins (mov_sreg_r16 SS AX);
    Ins (mov_r16_imm SP 31744);
    Ins sti;
    Ins (mov_r16_lbl SI "msg_loading");
    Ins (call "print_string");
    Ins (call "load_stage2");
    Ins (jmp_abs KERNEL_OFFSET);
  Label "print_string";
    Ins pusha;
  Label "print_string.loop";
    Ins lodsb;
    Ins (or_r8 AL AL);
    Ins (jz "print_string.done");
    Ins (mov_r8_imm AH 14);
    Ins (mov_r8_imm BH 0);
    Ins (int 16);
    Ins (jmp "print_string.loop");
  Label "print_string.done";
    Ins popa;
    Ins ret;
  Label "load_stage2";
    Ins pusha;
    Ins (mov_r8_imm AH 2);
    Ins (mov_r8_imm AL 15);
    Ins (mov_r8_imm CH 0);
    Ins (mov_r8_imm CL 2);
    Ins (mov_r8_imm DH 0);
    Ins (mov_r8_mem DL "BOOT_DRIVE");
    Ins (mov_r16_imm BX KERNEL_OFFSET);
    Ins (int 19);
    Ins (jc "load_stage2.disk_error");
    Ins (cmp_r8_imm AL 15);
    Ins (jne "load_stage2.disk_error");
    Ins (mov_r16_lbl SI "msg_loaded");
    Ins (call "print_string");
    Ins popa;
    Ins ret;
  Label "load_stage2.disk_error";
    Ins (mov_r16_lbl SI "msg_disk_error");
    Ins (call "print_string");
    Ins jmp_here;
  Db "BOOT_DRIVE" [0];
  Db "msg_loading" (bytes_of "Loading Stage 2..." ++ [13; 10; 0]);
  Db "msg_loaded" (bytes_of "Stage 2 loaded!" ++ [13; 10; 0]);
  Db "msg_disk_error" (bytes_of "Disk read error!" ++ [13; 10; 0])
].

(** [boot/boot.asm]: the boot sector of the real-mode profile (Profile A);
    reads the 10 sectors of the kernel. *)
Definition boot_boot_asm : list line := [
  Label "start";
    Ins (mov_mem_r8 "BOOT_DRIVE" DL);
    Ins cli;
    Ins (xor_r16 AX AX);
    Ins (mov_sreg_r16 DS AX);
    Ins (mov_sreg_r16 ES AX);
    Ins (mov_sreg_r16 SS AX);
    Ins (mov_r16_imm SP 31744);
    Ins sti;
    Ins (mov_r16_lbl SI "msg_boot");
    Ins (call "print");
    Ins (mov_r16_lbl SI "msg_loading");
    Ins (call "print");
    Ins (mov_r8_imm AH 2);
    Ins (mov_r8_imm AL 10);
    Ins (mov_r8_imm CH 0);
    Ins (mov_r8_imm CL 2);
    Ins (mov_r8_imm DH 0);
    Ins (mov_r8_mem DL "BOOT_DRIVE");
    Ins (mov_r16_imm BX KERNEL_OFFSET);
    Ins (int 19);
    Ins (jc "disk_error");
    Ins (cmp_r8_imm AL 10);
    Ins (jne "disk_error");
    Ins (mov_r16_lbl SI "msg_success");
    Ins (call "print");
    Ins (jmp_abs KERNEL_OFFSET);
  Label "disk_error";
    Ins (mov_r16_lbl SI "msg_error");
    Ins (call "print");
    Ins cli;
    Ins hlt;
    Ins jmp_here;
  Label "print";
    Ins pusha;
  Label "print.loop";
    Ins lodsb;
    Ins (test_r8 AL AL);
    Ins (jz "print.done");
    Ins (mov_r8_imm AH 14);
    Ins (mov_r8_imm BH 0);
    Ins (int 16);
    Ins (jmp "print.loop");
  Label "print.done";
    Ins popa;
    Ins ret;
  Db "BOOT_DRIVE" [0];
  Db "msg_boot" (bytes_of "AnnotatOS Bootloader" ++ [13; 10; 0]);
  Db "msg_loading" (bytes_of "Loading kernel..." ++ [13; 10; 0]);
  Db "msg_success" (bytes_of "Kernel loaded, starting..." ++ [13; 10; 0]);
  Db "msg_error" (bytes_of "DISK ERROR - System halted safely" ++ [13; 10; 0])
].

Inductive profile := ProfileA | ProfileB.

Definition source (p : profile) : list line :=
  match p with ProfileA => boot_boot_asm | ProfileB => boot_asm end.

(** The sector count each loader asks for and checks. *)
Definition sector_count (p : profile) : Z :=
  match p with ProfileA => 10 | ProfileB => 15 end.

(** The request each loader hands to the firmware. *)
Definition read_request (p : profile) (drive : Z) : disk_request :=
  mkRequest (sector_count p) 0 2 0 drive 0 KERNEL_OFFSET.

Definition error_label (p : profile) : string :=
  match p with
  | ProfileA => "disk_error"
  | ProfileB => "load_stage2.disk_error"
  end.

Definition boot (pf : platform) (p : profile) (drive : Z) (n : nat) : state :=
  run pf (source p) n (entry (source p) drive).

End Boot.

(** ** The VGA text driver ([screen.c]) *)

(** A C [for (i = lo; i < lo + n; i++) body(i)] loop over a state. *)
Fixpoint for_loop {S : Type} (n : nat) (lo : Z) (body : Z -> S -> S) (s : S)
  : S :=
  match n with
  | O => s
  | S n' => for_loop n' (lo + 1) body (body lo s)
  end.

Module Screen.

Definition MAX_ROWS : Z := 25.
Definition MAX_COLS : Z := 80.
Definition WHITE : Z := 15.
Definition BLACK : Z := 0.
Definition DEFAULT_COLOR : Z := Z.lor WHITE (Z.shiftl BLACK 4).
Definition VGA_CTRL_REGISTER : Z := 980.
Definition VGA_DATA_REGISTER : Z := 981.
Definition VGA_CURSOR_LOC_HIGH : Z := 14.
Definition VGA_CURSOR_LOC_LOW : Z := 15.

(** The driver's globals.  [video_memory] maps a cell index (in units of
    [uint16_t] from 0xB8000) to the cell stored there; an index outside
    0..1999 is memory beyond the display grid.  [ports] is the sequence of
    [write_port] calls, newest first. *)
Record screen := mkScreen {
  video_memory : gmap Z Z;
  cursor_row : Z;
  cursor_col : Z;
  current_color : Z;
  ports : list (Z * Z)
}.

(** State at load time: the initialisers of the globals. *)
Definition boot_screen (vm : gmap Z Z) : screen :=
  mkScreen vm 0 0 DEFAULT_COLOR [].

Definition peek (s : screen) (i : Z) : Z := video_memory s !!! i.

(** [video_memory[i] = v] for a [uint16_t] value [v], and for an [int]
    value, which the assignment converts to [uint16_t]. *)
Definition store (i v : Z) (s : screen) : screen :=
  mkScreen (<[i := v]> (video_memory s)) (cursor_row s) (cursor_col s)
           (current_color s) (ports s).

Definition poke (i v : Z) (s : screen) : screen := store i (wrap16 v) s.

Definition set_pos (row col : Z) (s : screen) : screen :=
  mkScreen (video_memory s) row col (current_color s) (ports s).

Definition write_port (port v : Z) (s : screen) : screen :=
  mkScreen (video_memory s) (cursor_row s) (cursor_col s) (current_color s)
           ((port, wrap8 v) :: ports s).

Definition get_offset (row col : Z) : Z := row * MAX_COLS + col.

(** A cell: attribute in the high byte, character in the low byte.  The
    character is a C [char], promoted to [int] before the [|]. *)
Definition cell (color c : Z) : Z := Z.lor (Z.shiftl color 8) c.

Definition blank (s : screen) : Z := cell (current_color s) 32.

Definition update_cursor (s : screen) : screen :=
  let position := wrap16 (get_offset (cursor_row s) (cursor_col s)) in
  let s1 := write_port VGA_CTRL_REGISTER VGA_CURSOR_LOC_HIGH s in
  let s2 := write_port VGA_DATA_REGISTER
              (Z.land (Z.shiftr position 8) 255) s1 in
  let s3 := write_port VGA_CTRL_REGISTER VGA_CURSOR_LOC_LOW s2 in
  write_port VGA_DATA_REGISTER (Z.land position 255) s3.

Definition scroll_up (s : screen) : screen :=
  let s1 := for_loop (Z.to_nat ((MAX_ROWS - 1) * MAX_COLS)) 0
              (fun i t => store i (peek t (i + MAX_COLS)) t) s in
  let s2 := for_loop (Z.to_nat MAX_COLS) ((MAX_ROWS - 1) * MAX_COLS)
              (fun i t => poke i (blank t) t) s1 in
  set_pos (MAX_ROWS - 1) 0 s2.

Definition screen_clear (s : screen) : screen :=
  let s1 := for_loop (Z.to_nat (MAX_ROWS * MAX_COLS)) 0
              (fun i t => poke i (blank t) t) s in
  update_cursor (set_pos 0 0 s1).

(** The [switch] of [screen_putchar]. *)
Definition putchar_switch (c : Z) (s : screen) : screen :=
  if c =? 10 then                                   (* '\n' *)
    set_pos (cursor_row s + 1) 0 s
  else if c =? 13 then                              (* '\r' *)
    set_pos (cursor_row s) 0 s
  else if c =? 8 then                               (* '\b' *)
    if 0 <? cursor_col s then
      let s1 := set_pos (cursor_row s) (cursor_col s - 1) s in
      poke (get_offset (cursor_row s1) (cursor_col s1)) (blank s1) s1
    else s
  else if c =? 9 then                               (* '\t' *)
    let s1 := set_pos (cursor_row s)
                (Z.land (cursor_col s + 8) (Z.lnot 7)) s in
    if MAX_COLS <=? cursor_col s1
    then set_pos (cursor_row s1 + 1) 0 s1
    else s1
  else
    let s1 := poke (get_offset (cursor_row s) (cursor_col s))
                (cell (current_color s) c) s in
    set_pos (cursor_row s1) (cursor_col s1 + 1) s1.

Definition screen_putchar (c : Z) (s : screen) : screen :=
  let s1 := putchar_switch c s in
  let s2 := if MAX_COLS <=? cursor_col s1
            then set_pos (cursor_row s1 + 1) 0 s1
            else s1 in
  let s3 := if MAX_ROWS <=? cursor_row s2 then scroll_up s2 else s2 in
  update_cursor s3.

(** [screen_write]: the characters of a C string up to its terminator (the
    end of the list stands for the terminator too). *)
Fixpoint screen_write (str : list Z) (s : screen) : screen :=
  match str with
  | [] => s
  | c :: rest => if c =? 0 then s else screen_write rest (screen_putchar c s)
  end.

(** [screen_write_dec]: the digits are collected least significant first
    into [buffer] and printed from its end.  A [uint32_t] has at most ten
    digits, which bounds the first loop. *)
Fixpoint dec_buffer (fuel : nat) (n : Z) : list Z :=
  match fuel with
  | O => []
  | S fuel' => if 0 <? n then (48 + n mod 10) :: dec_buffer fuel' (n / 10)
               else []
  end.

Definition screen_write_dec (n : Z) (s : screen) : screen :=
  if wrap32 n =? 0 then screen_putchar 48 s
  else fold_right screen_putchar s (dec_buffer 10 (wrap32 n)).

Definition screen_backspace (s : screen) : screen := screen_putchar 8 s.

Definition screen_set_color (fg bg : Z) (s : screen) : screen :=
  mkScreen (video_memory s) (cursor_row s) (cursor_col s)
           (wrap8 (Z.lor fg (Z.shiftl bg 4))) (ports s).

Definition screen_set_cursor (row col : Z) (s : screen) : screen :=
  let s1 := if (0 <=? row) && (row <? MAX_ROWS)
            then set_pos row (cursor_col s) s else s in
  let s2 := if (0 <=? col) && (col <? MAX_COLS)
            then set_pos (cursor_row s1) col s1 else s1 in
  update_cursor s2.

(** [screen_write_hex]: the loop [for (i = 28; i >= 0; i -= 4)]. *)
Definition hex_chars : list Z := bytes_of "0123456789ABCDEF".

Fixpoint hex_loop (fuel : nat) (i n : Z) (s : screen) : screen :=
  match fuel with
  | O => s
  | S fuel' =>
      if 0 <=? i then
        hex_loop fuel' (i - 4) n
          (screen_putchar (hex_chars !!! Z.to_nat (Z.land (Z.shiftr n i) 15)) s)
      else s
  end.

Definition screen_write_hex (n : Z) (s : screen) : screen :=
  hex_loop 9 28 (wrap32 n) (screen_write (bytes_of "0x") s).

(** [screen_get_cursor] with both pointers given. *)
Definition screen_get_cursor (s : screen) : Z * Z :=
  (cursor_row s, cursor_col s).

End Screen.

(** ** The keyboard driver ([keyboard.c]) *)

Module Keyboard.

(** A character constant. *)
Definition ch (s : string) : Z := nth 0 (bytes_of s) 0.

(** Scancode to ASCII, US layout, lowercase. *)
Definition scancode_to_ascii : list Z := [
  0; 0; ch "1"; ch "2"; ch "3"; ch "4"; ch "5"; ch "6"; ch "7"; ch "8";
  ch "9"; ch "0"; ch "-"; ch "="; 8;
  9; ch "q"; ch "w"; ch "e"; ch "r"; ch "t"; ch "y"; ch "u"; ch "i";
  ch "o"; ch "p"; ch "["; ch "]"; 10;
  0; (* Ctrl *)
  ch "a"; ch "s"; ch "d"; ch "f"; ch "g"; ch "h"; ch "j"; ch "k"; ch "l";
  ch ";"; 39; ch "`";
  0; (* Left Shift *)
  92; ch "z"; ch "x"; ch "c"; ch "v"; ch "b"; ch "n"; ch "m"; ch ",";
  ch "."; ch "/";
  0; (* Right Shift *)
  ch "*";
  0; (* Alt *)
  ch " " (* Space *)
].

(** Shifted scancodes. *)
Definition scancode_to_ascii_shift : list Z := [
  0; 0; ch "!"; ch "@"; ch "#"; ch "$"; ch "%"; ch "^"; ch "&"; ch "*";
  ch "("; ch ")"; ch "_"; ch "+"; 8;
  9; ch "Q"; ch "W"; ch "E"; ch "R"; ch "T"; ch "Y"; ch "U"; ch "I";
  ch "O"; ch "P"; ch "{"; ch "}"; 10;
  0; ch "A"; ch "S"; ch "D"; ch "F"; ch "G"; ch "H"; ch "J"; ch "K";
  ch "L"; ch ":"; 34; ch "~";
  0; ch "|"; ch "Z"; ch "X"; ch "C"; ch "V"; ch "B"; ch "N"; ch "M";
  ch "<"; ch ">"; ch "?"; 0; ch "*";
  0; ch " "
].

(** The driver's globals.  [key_buffer] maps an index to the byte stored
    there; the array has 256 entries, all zero at load time. *)
Record keyboard := mkKeyboard {
  key_buffer : gmap Z Z;
  buffer_start : Z;
  buffer_end : Z;
  shift_pressed : Z
}.

Definition boot_keyboard : keyboard := mkKeyboard ∅ 0 0 0.

(** The character a pressed key stands for: the [ascii] local of
    [keyboard_handler]. *)
Definition translate (shift scancode : Z) : Z :=
  if scancode <? Z.of_nat (length scancode_to_ascii) then
    if shift =? 0
    then scancode_to_ascii !!! Z.to_nat scancode
    else scancode_to_ascii_shift !!! Z.to_nat scancode
  else 0.

(** The IRQ1 handler; [port] is the byte read from the data port. *)
Definition keyboard_handler (port : Z) (k : keyboard) : keyboard :=
  let scancode := wrap8 port in
  if (scancode =? 42) || (scancode =? 54) then
    mkKeyboard (key_buffer k) (buffer_start k) (buffer_end k) 1
  else if (scancode =? 170) || (scancode =? 182) then
    mkKeyboard (key_buffer k) (buffer_start k) (buffer_end k) 0
  else if negb (Z.land scancode 128 =? 0) then k
  else
    let ascii := translate (shift_pressed k) scancode in
    if negb (ascii =? 0) then
      mkKeyboard (<[buffer_end k := ascii]> (key_buffer k))
                 (buffer_start k)
                 (Z.rem (buffer_end k + 1) 256)
                 (shift_pressed k)
    else k.

(** [keyboard_getchar]: [None] when the buffer is empty, where the C
    function sits in its [hlt] loop until an interrupt changes the
    indices. *)
Definition keyboard_getchar (k : keyboard) : option (Z * keyboard) :=
  if buffer_start k =? buffer_end k then None
  else
    Some (key_buffer k !!! buffer_start k,
          mkKeyboard (key_buffer k) (Z.rem (buffer_start k + 1) 256)
                     (buffer_end k) (shift_pressed k)).

End Keyboard.

(** ** The kernel heap ([memory.c]) *)

Module Memory.

Definition NULL : Z := 0.

(** [sizeof(mem_block_t)]: a [uint32_t], an [int] and a pointer, four bytes
    each in the 32-bit build. *)
Definition HEADER : Z := 12.

(** The two heap constants of [kernel.h]. *)
Record heap_config := mkConfig {
  KERNEL_HEAP_START : Z;
  KERNEL_HEAP_SIZE : Z
}.

Definition kernel_h : heap_config := mkConfig 1048576 1048576.

(** The allocator's globals and the memory they point into.  [ram] maps
    the address of an object (a header field, a word or a byte the kernel
    stores) to its value; the accesses of the modelled code never
    overlap. *)
Record heap := mkHeap {
  ram : gmap Z Z;
  heap_end : Z;
  free_list : Z;
  total_allocated : Z
}.

(** State at load time: [free_list = NULL], [total_allocated = 0]. *)
Definition boot_heap (m : gmap Z Z) : heap := mkHeap m 0 NULL 0.

Definition load (h : heap) (a : Z) : Z := ram h !!! a.

Definition store (a v : Z) (h : heap) : heap :=
  mkHeap (<[a := v]> (ram h)) (heap_end h) (free_list h) (total_allocated h).

Definition set_total (v : Z) (h : heap) : heap :=
  mkHeap (ram h) (heap_end h) (free_list h) v.

(** Pointer arithmetic on a 32-bit machine. *)
Definition ptr_add (p n : Z) : Z := wrap32 (p + n).

(** The fields of the [mem_block_t] at address [b]. *)
Definition block_size (h : heap) (b : Z) : Z := load h b.
Definition block_is_free (h : heap) (b : Z) : Z := load h (b + 4).
Definition block_next (h : heap) (b : Z) : Z := load h (b + 8).

Definition memory_init (cfg : heap_config) (h : heap) : heap :=
  let start := KERNEL_HEAP_START cfg in
  let h1 := mkHeap (ram h) (ptr_add start (KERNEL_HEAP_SIZE cfg)) start
                   (total_allocated h) in
  let h2 := store (free_list h1) (wrap32 (KERNEL_HEAP_SIZE cfg - HEADER)) h1 in
  let h3 := store (free_list h2 + 4) 1 h2 in
  store (free_list h3 + 8) NULL h3.

(** [(size + 3) & ~3] on [uint32_t]. *)
Definition align4 (size : Z) : Z := Z.land (wrap32 (size + 3)) (Z.lnot 3).

(** The [while (current)] loop of [kmalloc].  The loop follows [next]
    links, so the model bounds it by [fuel]; [None] means the bound was
    reached. *)
Fixpoint kmalloc_scan (fuel : nat) (size current : Z) (h : heap)
  : option (Z * heap) :=
  match fuel with
  | O => None
  | S fuel' =>
      if current =? NULL then Some (NULL, h)
      else if negb (block_is_free h current =? 0)
              && (size <=? block_size h current) then
        let h1 := store (current + 4) 0 h in
        let h2 :=
          if wrap32 (size + HEADER + 16) <? block_size h1 current then
            let new_block := ptr_add current (HEADER + size) in
            let a := store new_block
                       (wrap32 (block_size h1 current - size - HEADER)) h1 in
            let b := store (new_block + 4) 1 a in
            let c := store (new_block + 8) (block_next b current) b in
            let d := store (current + 8) new_block c in
            store current size d
          else h1 in
        Some (ptr_add current HEADER,
              set_total (wrap32 (total_allocated h2 + block_size h2 current))
                        h2)
      else kmalloc_scan fuel' size (block_next h current) h
  end.

Definition kmalloc (fuel : nat) (size : Z) (h : heap) : option (Z * heap) :=
  if wrap32 size =? 0 then Some (NULL, h)
  else kmalloc_scan fuel (align4 size) (free_list h) h.

(** The coalescing loop of [kfree]. *)
Fixpoint coalesce (fuel : nat) (current : Z) (h : heap) : option heap :=
  match fuel with
  | O => None
  | S fuel' =>
      if (current =? NULL) || (block_next h current =? NULL) then Some h
      else if negb (block_is_free h current =? 0)
              && negb (block_is_free h (block_next h current) =? 0) then
        let h1 := store current
                    (wrap32 (block_size h current
                             + wrap32 (HEADER
                                       + block_size h (block_next h current))))
                    h in
        let h2 := store (current + 8)
                    (block_next h1 (block_next h1 current)) h1 in
        coalesce fuel' current h2
      else coalesce fuel' (block_next h current) h
  end.

Definition kfree (fuel : nat) (ptr : Z) (h : heap) : option heap :=
  if ptr =? NULL then Some h
  else
    let block := ptr_add ptr (- HEADER) in
    let h1 := store (block + 4) 1 h in
    let h2 := set_total (wrap32 (total_allocated h1 - block_size h1 block))
                        h1 in
    coalesce fuel (free_list h2) h2.

End Memory.

(** ** The process manager ([process.c]) *)

Module Process.

Import Memory Screen.

Definition PROCESS_STACK_SIZE : Z := 4096.

(** A [uint32_t] returned as [int]. *)
Definition to_int (x : Z) : Z :=
  if x <? 2147483648 then x else x - 4294967296.

(** [process_state_t]. *)
Definition PROCESS_READY : Z := 0.
Definition PROCESS_RUNNING : Z := 1.
Definition PROCESS_TERMINATED : Z := 2.

(** Layout of [process_t] in the 32-bit build: [id] at 0, [name] (32 bytes)
    at 4, [state] at 36, [esp] at 40, [ebp] at 44, [stack] at 48, [next]
    at 52. *)
Definition SIZEOF_PROCESS : Z := 56.
Definition OFF_ID : Z := 0.
Definition OFF_NAME : Z := 4.
Definition OFF_STATE : Z := 36.
Definition OFF_ESP : Z := 40.
Definition OFF_EBP : Z := 44.
Definition OFF_STACK : Z := 48.
Definition OFF_NEXT : Z := 52.

(** The manager's globals, and the heap the blocks live in. *)
Record procs := mkProcs {
  kheap : heap;
  process_queue : Z;
  current_process : Z;
  next_pid : Z
}.

(** State at load time: both pointers [NULL], [next_pid = 1]. *)
Definition boot_procs (h : heap) : procs := mkProcs h NULL NULL 1.

Definition process_init (p : procs) : procs :=
  mkProcs (kheap p) NULL NULL (next_pid p).

(** The copy loop [for (i = 0; i < 31 && name[i]; i++)]: [n] bounds the
    iterations left; the result is the final [i] and the heap.  [name] is
    a C string, the end of the list standing for its terminator. *)
Fixpoint copy_name (n : nat) (i : Z) (name : list Z) (proc : Z) (h : heap)
  : Z * heap :=
  match n with
  | O => (i, h)
  | S n' =>
      let c := nth (Z.to_nat i) name 0 in
      if c =? 0 then (i, h)
      else copy_name n' (i + 1) name proc (Memory.store (proc + OFF_NAME + i) c h)
  end.

(** [process_create].  The result is the returned [int] and the new
    state; [None] when a loop of the allocator ran out of [fuel]. *)
Definition process_create (fuel : nat) (entry : Z) (name : list Z)
  (p : procs) : option (Z * procs) :=
  match kmalloc fuel SIZEOF_PROCESS (kheap p) with
  | None => None
  | Some (proc, h1) =>
      if proc =? NULL then
        Some (-1, mkProcs h1 (process_queue p) (current_process p)
                          (next_pid p))
      else
        match kmalloc fuel PROCESS_STACK_SIZE h1 with
        | None => None
        | Some (stack, h2) =>
            let h3 := Memory.store (proc + OFF_STACK) stack h2 in
            if load h3 (proc + OFF_STACK) =? NULL then
              match kfree fuel proc h3 with
              | None => None
              | Some h4 =>
                  Some (-1, mkProcs h4 (process_queue p) (current_process p)
                                    (next_pid p))
              end
            else
              let h4 := Memory.store (proc + OFF_ID) (next_pid p) h3 in
              let pid' := wrap32 (next_pid p + 1) in
              let (i, h5) := copy_name 31 0 name proc h4 in
              let h6 := Memory.store (proc + OFF_NAME + i) 0 h5 in
              let h7 := Memory.store (proc + OFF_STATE) PROCESS_READY h6 in
              let stack_top :=
                ptr_add (ptr_add (load h7 (proc + OFF_STACK))
                                 PROCESS_STACK_SIZE) (-4) in
              let h8 := Memory.store stack_top entry h7 in
              let h9 := Memory.store (proc + OFF_ESP) stack_top h8 in
              let h10 := Memory.store (proc + OFF_EBP) (load h9 (proc + OFF_ESP))
                               h9 in
              let h11 := Memory.store (proc + OFF_NEXT) (process_queue p) h10 in
              Some (to_int (load h11 (proc + OFF_ID)),
                    mkProcs h11 proc (current_process p) pid')
        end
  end.

(** The C string at address [a]; [fuel] bounds its length. *)
Fixpoint string_at (fuel : nat) (h : heap) (a : Z) : list Z :=
  match fuel with
  | O => []
  | S fuel' =>
      let c := load h a in
      if c =? 0 then [] else c :: string_at fuel' h (a + 1)
  end.

(** The [while (proc)] loop of [process_list_processes]. *)
Fixpoint list_loop (fuel : nat) (h : heap) (proc : Z) (scr : screen)
  : option screen :=
  match fuel with
  | O => None
  | S fuel' =>
      if proc =? NULL then Some scr
      else
        let s1 := screen_write_dec (load h (proc + OFF_ID)) scr in
        let s2 := screen_write (bytes_of "    ") s1 in
        let state := load h (proc + OFF_STATE) in
        let s3 :=
          if state =? PROCESS_READY then screen_write (bytes_of "READY   ") s2
          else if state =? PROCESS_RUNNING
               then screen_write (bytes_of "RUNNING ") s2
          else if state =? PROCESS_TERMINATED
               then screen_write (bytes_of "TERM    ") s2
          else s2 in
        let s4 := screen_write (string_at fuel h (proc + OFF_NAME)) s3 in
        let s5 := screen_putchar 10 s4 in
        list_loop fuel' h (load h (proc + OFF_NEXT)) s5
  end.

Definition process_list_processes (fuel : nat) (p : procs) (scr : screen)
  : option screen :=
  let s1 := screen_write (bytes_of "PID  State    Name" ++ [10]) scr in
  let s2 := screen_write (bytes_of "---  -------  ----" ++ [10]) s1 in
  list_loop fuel (kheap p) (process_queue p) s2.

Definition process_list (fuel : nat) (p : procs) (scr : screen)
  : option screen :=
  process_list_processes fuel p scr.

(** [process_exit]. *)
Definition process_exit (p : procs) (scr : screen) : procs * screen :=
  if current_process p =? NULL then (p, scr)
  else
    (mkProcs (Memory.store (current_process p + OFF_STATE) PROCESS_TERMINATED
                (kheap p))
             (process_queue p) (current_process p) (next_pid p),
     screen_write (bytes_of "Process exited" ++ [10]) scr).

End Process.

(** * Properties *)

Lemma iter_add {A : Type} (f : A -> A) (n m : nat) (a : A) :
  iter (n + m) f a = iter m f (iter n f a).
Proof.
  revert a. induction n as [|n IH]; intros a; simpl; [reflexivity|apply IH].
Qed.

Lemma iter_fixed {A : Type} (f : A -> A) (a : A) (n : nat) :
  f a = a -> iter n f a = a.
Proof.
  intros Hfix. induction n as [|n IH]; simpl; [reflexivity|].
  rewrite Hfix. exact IH.
Qed.

(** ** The boot loaders *)

Ltac split_ands :=
  repeat match goal with |- _ /\ _ => split end.

Ltac settle :=
  lazymatch goal with
  | |- _ -> _ =>
      let H := fresh in
      intros H; vm_compute in H; first [discriminate H | vm_compute; reflexivity]
  | |- _ => vm_compute; reflexivity
  end.

Section BootFacts.

Import Boot.

(** *** Stable states *)

Lemma step_left pf src s : has_left s = true -> step pf src s = s.
Proof.
  intros H. unfold step. rewrite H.
  destruct (halted s), (fault s); reflexivity.
Qed.

Lemma step_halted pf src s : halted s = true -> step pf src s = s.
Proof. intros H. unfold step. rewrite H. reflexivity. Qed.

Lemma run_add pf src n m s :
  run pf src (n + m) s = run pf src m (run pf src n s).
Proof. apply iter_add. Qed.

Lemma run_settled pf src s0 N s :
  run pf src N s0 = s -> step pf src s = s ->
  forall n, (N <= n)%nat -> run pf src n s0 = s.
Proof.
  intros Hrun Hfix n Hn.
  replace n with (N + (n - N))%nat by lia.
  rewrite run_add, Hrun. apply iter_fixed, Hfix.
Qed.

(** A condition that freezes the machine once it holds cannot have held
    on the way to a stable state in which it fails. *)
Lemma never_before (P : state -> bool) pf src s0 N s :
  (forall t, P t = true -> step pf src t = t) ->
  run pf src N s0 = s -> step pf src s = s -> P s = false ->
  forall n, P (run pf src n s0) = false.
Proof.
  intros Hfreeze Hrun Hfix HP n.
  destruct (Nat.le_gt_cases N n) as [Hle|Hgt].
  - rewrite (run_settled _ _ _ _ _ Hrun Hfix n Hle). exact HP.
  - destruct (P (run pf src n s0)) eqn:E; [|reflexivity].
    assert (Hn : run pf src N s0 = run pf src n s0).
    { replace N with (n + (N - n))%nat by lia.
      rewrite run_add. apply iter_fixed, Hfreeze, E. }
    rewrite Hrun in Hn. rewrite <- Hn, HP in E. discriminate.
Qed.

Lemma has_left_false s : has_left s = false -> left_to s = None.
Proof. unfold has_left. destruct (left_to s); [discriminate|reflexivity]. Qed.

(** *** Up to the return of the disk service *)

(** Number of steps after which the processor is at [int 0x13]. *)
Definition steps_to_read (p : profile) : nat :=
  match p with ProfileA => 366 | ProfileB => 190 end.

(** The state in which the disk service returns, as a function of what it
    returns. *)
Definition after_read (p : profile) (hs : bool) (drive : Z)
  (r : disk_response) : state :=
  boot (mkPlatform (fun _ => r) hs) p drive (S (steps_to_read p)).

Lemma boot_after_read p pf drive :
  boot pf p drive (S (steps_to_read p))
  = after_read p (hlt_stops pf) drive (disk_read pf (read_request p drive)).
Proof. destruct pf as [dr hs], p; vm_compute; reflexivity. Qed.

Lemma boot_from_read p pf drive n :
  boot pf p drive (S (steps_to_read p) + n)
  = run pf (source p) n
      (after_read p (hlt_stops pf) drive (disk_read pf (read_request p drive))).
Proof. unfold boot at 1. rewrite run_add. fold (boot pf p drive (S (steps_to_read p))).
  rewrite boot_after_read. reflexivity. Qed.

(** The loader asks for exactly the request of its profile, once. *)
Lemma after_read_reads p hs drive r :
  reads (after_read p hs drive r) = [read_request p drive].
Proof. destruct p; vm_compute; reflexivity. Qed.

(** After the carry test and the comparison of AL with the count. *)
Lemma after_compare p pf drive h a :
  run pf (source p) 2 (after_read p (hlt_stops pf) drive (mkResponse false h a))
  = set_flags (a <? sector_count p) (a =? sector_count p)
      (run pf (source p) 2
         (after_read p (hlt_stops pf) drive (mkResponse false h a))).
Proof. destruct pf as [dr hs], p; vm_compute; reflexivity. Qed.

(** *** Failure of the read *)

(** The firmware reports failure by the carry flag or by a count in AL
    that differs from the count asked for. *)
Definition read_failed (p : profile) (r : disk_response) : Prop :=
  resp_cf r = true \/ resp_al r <> sector_count p.

(** What each loader has printed before it reads, and what it prints on
    its error path. *)
Definition banner (p : profile) : list Z :=
  match p with
  | ProfileA => bytes_of "AnnotatOS Bootloader" ++ [13; 10]
                ++ bytes_of "Loading kernel..." ++ [13; 10]
  | ProfileB => bytes_of "Loading Stage 2..." ++ [13; 10]
  end.

Definition error_text (p : profile) : list Z :=
  match p with
  | ProfileA => bytes_of "DISK ERROR - System halted safely" ++ [13; 10]
  | ProfileB => bytes_of "Disk read error!" ++ [13; 10]
  end.

(** The loader is on its error path when it stands at the error label. *)
Definition on_error_path (p : profile) (s : state) : Prop :=
  find_label (error_label p) (source p) = Some (ip s).

(** The state in which a failed boot comes to rest. *)
Definition error_stop (p : profile) (pf : platform) (drive : Z) (s : state)
  : Prop :=
  step pf (source p) s = s
  /\ tty s = banner p ++ error_text p
  /\ reads s = [read_request p drive]
  /\ has_left s = false
  /\ fault s = false
  /\ iflag s = match p with ProfileA => false | ProfileB => true end
  /\ halted s = match p with ProfileA => hlt_stops pf | ProfileB => false end
  /\ (halted s = false -> source p !! ip s = Some (Ins jmp_here)).

Lemma failed_read_settles p pf drive :
  read_failed p (disk_read pf (read_request p drive)) ->
  (exists n, on_error_path p (boot pf p drive n))
  /\ exists N, error_stop p pf drive (boot pf p drive N).
Proof.
  intros Hfail. split.
  - destruct (disk_read pf (read_request p drive)) as [c h a] eqn:Hr.
    destruct Hfail as [Hc|Ha]; simpl in *.
    + subst c. exists (S (steps_to_read p) + 1)%nat.
      rewrite boot_from_read, Hr.
      destruct pf as [dr hs], p; vm_compute; reflexivity.
    + destruct c.
      * exists (S (steps_to_read p) + 1)%nat.
        rewrite boot_from_read, Hr.
        destruct pf as [dr hs], p; vm_compute; reflexivity.
      * exists (S (steps_to_read p) + (2 + 1))%nat.
        rewrite boot_from_read, Hr, run_add, after_compare.
        apply Z.eqb_neq in Ha. rewrite Ha.
        generalize (a <? sector_count p). intros fc.
        destruct pf as [dr hs], p; vm_compute; reflexivity.
  - exists (S (steps_to_read p) + (2 + 598))%nat.
    rewrite boot_from_read.
    destruct (disk_read pf (read_request p drive)) as [c h a].
    assert (Hcase : c = true \/ (c = false /\ (a =? sector_count p) = false)).
    { destruct Hfail as [Hc|Ha]; simpl in *; [left; exact Hc|].
      destruct c; [left; reflexivity|right; split; [reflexivity|]].
      apply Z.eqb_neq, Ha. }
    clear Hfail. destruct Hcase as [->|[-> Ha]].
    + destruct pf as [dr hs], hs, p; unfold error_stop;
        split_ands; settle.
    + rewrite run_add, after_compare, Ha.
      generalize (a <? sector_count p). intros fc.
      destruct pf as [dr hs], hs, p; unfold error_stop;
        split_ands; settle.
Qed.

Lemma failed_read_halted_flag p pf drive :
  read_failed p (disk_read pf (read_request p drive)) ->
  forall n, has_left (boot pf p drive n) = false.
Proof.
  intros Hfail n.
  destruct (failed_read_settles p pf drive Hfail) as [_ [N Hstop]].
  destruct Hstop as (Hfix & _ & _ & Hleft & _).
  exact (never_before has_left pf (source p) _ N _
           (step_left pf (source p)) eq_refl Hfix Hleft n).
Qed.

(** A read the firmware reports as complete does lead to the jump: the
    loader leaves for the load address. *)
Lemma verified_read_jumps p pf drive :
  resp_cf (disk_read pf (read_request p drive)) = false ->
  resp_al (disk_read pf (read_request p drive)) = sector_count p ->
  exists n, left_to (boot pf p drive n) = Some KERNEL_OFFSET.
Proof.
  intros Hc Ha. exists (S (steps_to_read p) + 600)%nat.
  rewrite boot_from_read.
  destruct (disk_read pf (read_request p drive)) as [c h a].
  simpl in Hc, Ha. subst c a.
  destruct pf as [dr hs], p; vm_compute; reflexivity.
Qed.

(** A platform whose disk service always reports the carry/error
    condition, and on which [hlt] works. *)
Definition failing_platform : platform :=
  mkPlatform (fun _ => mkResponse true 1 0) true.

(** The terminal halt as the specification words it: after the error
    string the loader rests with interrupts masked, the processor halted
    (or, where [hlt] has no effect, looping on [jmp $]). *)
Definition masked_halt (p : profile) (pf : platform) (drive : Z) : Prop :=
  exists N,
    let s := boot pf p drive N in
    tty s = banner p ++ error_text p
    /\ iflag s = false
    /\ (if hlt_stops pf then halted s = true
        else source p !! ip s = Some (Ins jmp_here)).

(** C1. In both profiles, when the firmware disk read sets the carry flag,
    or clears it but leaves in AL a sector count other than the one asked
    for (10 in Profile A, 15 in Profile B), the loader reaches its error
    label and control never leaves the boot sector: the jump to the load
    address is not executed, however long the machine runs. *)
Theorem failed_read_never_jumps (p : profile) (pf : platform) (drive : Z) :
  read_failed p (disk_read pf (read_request p drive)) ->
  (exists n, on_error_path p (boot pf p drive n))
  /\ forall n, left_to (boot pf p drive n) = None.
Proof.
  intros Hfail. split.
  - exact (proj1 (failed_read_settles p pf drive Hfail)).
  - intros n. apply has_left_false, failed_read_halted_flag, Hfail.
Qed.

Lemma failed_read_never_jumps_witness :
  read_failed ProfileB (disk_read failing_platform (read_request ProfileB 128))
  /\ ((exists n, on_error_path ProfileB (boot failing_platform ProfileB 128 n))
      /\ forall n, left_to (boot failing_platform ProfileB 128 n) = None).
Proof.
  split.
  - left. reflexivity.
  - apply (failed_read_never_jumps ProfileB failing_platform 128).
    left. reflexivity.
Defined.

(** C2, as stated, fails for Profile B: on a failed read its loader never
    masks interrupts and never halts the processor. *)
Lemma profile_b_error_halt_not_masked :
  read_failed ProfileB (disk_read failing_platform (read_request ProfileB 128))
  /\ ~ masked_halt ProfileB failing_platform 128.
Proof.
  assert (Hfail : read_failed ProfileB
            (disk_read failing_platform (read_request ProfileB 128)))
    by (left; reflexivity).
  split; [exact Hfail|].
  intros [N (_ & _ & Hh)]. simpl in Hh.
  destruct (failed_read_settles ProfileB failing_platform 128 Hfail)
    as [_ [M Hstop]].
  destruct Hstop as (Hfix & _ & _ & _ & _ & _ & Hhalt & _).
  pose proof (never_before halted failing_platform (source ProfileB) _ M _
                (step_halted failing_platform (source ProfileB))
                eq_refl Hfix Hhalt N) as Hnever.
  unfold boot in Hh. rewrite Hh in Hnever. discriminate.
Qed.

(** C2, amended. In both profiles a failed read makes the loader print its
    error string and come to rest for good, having asked the firmware
    once (no retry) and without ever leaving for the load address.
    Profile A rests with interrupts masked, halted (or on [jmp $] where
    [hlt] has no effect); Profile B rests on [jmp $] with interrupts
    enabled and the processor running. *)
Theorem failed_read_stops (p : profile) (pf : platform) (drive : Z) :
  read_failed p (disk_read pf (read_request p drive)) ->
  exists N s,
    (forall n, (N <= n)%nat -> boot pf p drive n = s)
    /\ tty s = banner p ++ error_text p
    /\ reads s = [read_request p drive]
    /\ (forall n, left_to (boot pf p drive n) = None)
    /\ iflag s = match p with ProfileA => false | ProfileB => true end
    /\ halted s = match p with ProfileA => hlt_stops pf | ProfileB => false end
    /\ (halted s = false -> source p !! ip s = Some (Ins jmp_here)).
Proof.
  intros Hfail.
  destruct (failed_read_settles p pf drive Hfail) as [_ [N Hstop]].
  destruct Hstop as (Hfix & Htty & Hreads & Hleft & _ & Hif & Hhalt & Hloop).
  exists N, (boot pf p drive N). split_ands; try assumption.
  - intros n Hn. exact (run_settled pf (source p) _ N _ eq_refl Hfix n Hn).
  - intros n. apply has_left_false, failed_read_halted_flag, Hfail.
Qed.

Lemma failed_read_stops_witness :
  read_failed ProfileA (disk_read failing_platform (read_request ProfileA 128))
  /\ exists N s,
       (forall n, (N <= n)%nat -> boot failing_platform ProfileA 128 n = s)
       /\ tty s = banner ProfileA ++ error_text ProfileA
       /\ reads s = [read_request ProfileA 128]
       /\ (forall n, left_to (boot failing_platform ProfileA 128 n) = None)
       /\ iflag s = false
       /\ halted s = hlt_stops failing_platform
       /\ (halted s = false ->
           source ProfileA !! ip s = Some (Ins jmp_here)).
Proof.
  split.
  - left. reflexivity.
  - apply (failed_read_stops ProfileA failing_platform 128).
    left. reflexivity.
Defined.

End BootFacts.

(** ** The screen *)

Section ScreenFacts.

Import Screen.

(** [n] calls of [screen_putchar], one per character of [cs]. *)
Definition putchars (cs : list Z) (s : screen) : screen :=
  fold_left (fun t c => screen_putchar c t) cs s.

(** A line written with [screen_putchar] and ended by a newline. *)
Definition put_line (l : list Z) (s : screen) : screen :=
  screen_putchar 10 (putchars l s).

Definition put_lines (ls : list (list Z)) (s : screen) : screen :=
  fold_left (fun t l => put_line l t) ls s.

(** Characters that take the [default] branch of the [switch]. *)
Definition plain (c : Z) : Prop := c <> 10 /\ c <> 13 /\ c <> 8 /\ c <> 9.

(** The cell that shows character [c] under attribute [color]. *)
Definition glyph (color c : Z) : Z := wrap16 (cell color c).

Definition in_grid (i : Z) : Prop := 0 <= i < MAX_ROWS * MAX_COLS.

Definition cursor_ok (s : screen) : Prop :=
  0 <= cursor_row s <= 24 /\ 0 <= cursor_col s <= 79.

(** *** The loops *)

Lemma for_loop_keeps {S A : Type} (f : S -> A) (body : Z -> S -> S) :
  (forall i t, f (body i t) = f t) ->
  forall n lo s, f (for_loop n lo body s) = f s.
Proof.
  intros Hbody n. induction n as [|n IH]; intros lo s; simpl; [reflexivity|].
  rewrite IH. apply Hbody.
Qed.

Lemma peek_store i v s j :
  peek (store i v s) j = if decide (i = j) then v else peek s j.
Proof.
  unfold peek, store; simpl. rewrite lookup_total_insert. reflexivity.
Qed.

Lemma fill_loop_peek (v : Z) n lo s j :
  peek (for_loop n lo (fun i t => store i v t) s) j
  = if decide (lo <= j < lo + Z.of_nat n) then v else peek s j.
Proof.
  revert lo s. induction n as [|n IH]; intros lo s; simpl for_loop.
  - destruct (decide _); [lia|reflexivity].
  - rewrite IH, peek_store.
    repeat destruct (decide _); try lia; reflexivity.
Qed.

Lemma blank_loop_fill n lo s :
  for_loop n lo (fun i t => poke i (blank t) t) s
  = for_loop n lo (fun i t => store i (wrap16 (blank s)) t) s.
Proof.
  revert lo s. induction n as [|n IH]; intros lo s; simpl; [reflexivity|].
  rewrite IH. reflexivity.
Qed.

Lemma blank_loop_peek n lo s j :
  peek (for_loop n lo (fun i t => poke i (blank t) t) s) j
  = if decide (lo <= j < lo + Z.of_nat n) then wrap16 (blank s) else peek s j.
Proof. rewrite blank_loop_fill. apply fill_loop_peek. Qed.

Lemma copy_loop_peek (d : Z) n lo s j :
  0 < d ->
  peek (for_loop n lo (fun i t => store i (peek t (i + d)) t) s) j
  = if decide (lo <= j < lo + Z.of_nat n) then peek s (j + d) else peek s j.
Proof.
  intros Hd. revert lo s. induction n as [|n IH]; intros lo s; simpl for_loop.
  - destruct (decide _); [lia|reflexivity].
  - rewrite IH, !peek_store.
    repeat destruct (decide _); subst; try lia; reflexivity.
Qed.

#[local] Arguments for_loop : simpl never.
#[local] Arguments scroll_up : simpl never.
#[local] Arguments screen_clear : simpl never.
#[local] Arguments update_cursor : simpl never.

(** *** Clearing and scrolling *)

Lemma peek_set_pos r c t j : peek (set_pos r c t) j = peek t j.
Proof. reflexivity. Qed.

Lemma peek_update_cursor t j : peek (update_cursor t) j = peek t j.
Proof. reflexivity. Qed.

Lemma color_update_cursor t : current_color (update_cursor t) = current_color t.
Proof. reflexivity. Qed.

Lemma color_set_pos r c t : current_color (set_pos r c t) = current_color t.
Proof. reflexivity. Qed.

Lemma scroll_up_cursor s :
  cursor_row (scroll_up s) = 24 /\ cursor_col (scroll_up s) = 0.
Proof. split; reflexivity. Qed.

Lemma scroll_up_color s : current_color (scroll_up s) = current_color s.
Proof.
  unfold scroll_up, set_pos. cbn [current_color].
  rewrite (for_loop_keeps current_color) by reflexivity.
  rewrite (for_loop_keeps current_color) by reflexivity.
  reflexivity.
Qed.

(** Rows 1..24 move up by one row, row 24 is blanked, and nothing outside
    the grid is touched. *)
Lemma scroll_up_peek s j :
  peek (scroll_up s) j
  = if decide (1920 <= j < 2000) then glyph (current_color s) 32
    else if decide (0 <= j < 1920) then peek s (j + 80)
    else peek s j.
Proof.
  unfold scroll_up.
  rewrite peek_set_pos, blank_loop_peek, copy_loop_peek by reflexivity.
  unfold blank. rewrite (for_loop_keeps current_color) by reflexivity.
  change (Z.of_nat (Z.to_nat MAX_COLS)) with 80.
  change (Z.of_nat (Z.to_nat ((MAX_ROWS - 1) * MAX_COLS))) with 1920.
  change ((MAX_ROWS - 1) * MAX_COLS) with 1920.
  change MAX_COLS with 80.
  repeat destruct (decide _); try lia; reflexivity.
Qed.

Lemma screen_clear_cursor s :
  cursor_row (screen_clear s) = 0 /\ cursor_col (screen_clear s) = 0.
Proof. split; reflexivity. Qed.

Lemma screen_clear_color s : current_color (screen_clear s) = current_color s.
Proof.
  unfold screen_clear.
  rewrite color_update_cursor, color_set_pos.
  rewrite (for_loop_keeps current_color) by reflexivity. reflexivity.
Qed.

Lemma screen_clear_peek s j :
  peek (screen_clear s) j
  = if decide (0 <= j < 2000) then glyph (current_color s) 32 else peek s j.
Proof.
  unfold screen_clear.
  rewrite peek_update_cursor, peek_set_pos, blank_loop_peek.
  change (Z.of_nat (Z.to_nat (MAX_ROWS * MAX_COLS))) with 2000.
  repeat destruct (decide _); try lia; reflexivity.
Qed.

(** *** One character *)

Lemma row_update_cursor t : cursor_row (update_cursor t) = cursor_row t.
Proof. reflexivity. Qed.

Lemma col_update_cursor t : cursor_col (update_cursor t) = cursor_col t.
Proof. reflexivity. Qed.

Lemma plain_tests c :
  plain c ->
  (c =? 10) = false /\ (c =? 13) = false /\ (c =? 8) = false
  /\ (c =? 9) = false.
Proof. unfold plain. rewrite <- !Z.eqb_neq. tauto. Qed.

(** Unfolds [screen_putchar] on a plain character. *)
Ltac putchar_default Hc :=
  let E1 := fresh in let E2 := fresh in let E3 := fresh in let E4 := fresh in
  destruct (plain_tests _ Hc) as (E1 & E2 & E3 & E4);
  unfold screen_putchar, putchar_switch; rewrite E1, E2, E3, E4;
  cbv zeta; cbn [cursor_row cursor_col set_pos poke store].

(** A plain character away from the right margin. *)
Lemma putchar_plain c s :
  plain c -> cursor_ok s -> cursor_col s < 79 ->
  let s' := screen_putchar c s in
  cursor_row s' = cursor_row s
  /\ cursor_col s' = cursor_col s + 1
  /\ current_color s' = current_color s
  /\ forall j, peek s' j
       = if decide (get_offset (cursor_row s) (cursor_col s) = j)
         then glyph (current_color s) c else peek s j.
Proof.
  intros Hc [Hr Hcol] Hlt. putchar_default Hc.
  assert (Hw : (MAX_COLS <=? cursor_col s + 1) = false)
    by (apply Z.leb_gt; unfold MAX_COLS; lia).
  assert (Hs : (MAX_ROWS <=? cursor_row s) = false)
    by (apply Z.leb_gt; unfold MAX_ROWS; lia).
  rewrite Hw. cbn [cursor_row cursor_col set_pos poke store]. rewrite Hs.
  split_ands; try reflexivity.
  intros j. apply (peek_store _ _ s j).
Qed.

(** A plain character at the right margin wraps to the next row. *)
Lemma putchar_plain_wrap c s :
  plain c -> 0 <= cursor_row s < 24 -> cursor_col s = 79 ->
  let s' := screen_putchar c s in
  cursor_row s' = cursor_row s + 1
  /\ cursor_col s' = 0
  /\ current_color s' = current_color s
  /\ forall j, peek s' j
       = if decide (get_offset (cursor_row s) 79 = j)
         then glyph (current_color s) c else peek s j.
Proof.
  intros Hc Hr Hcol. putchar_default Hc.
  rewrite Hcol. change (MAX_COLS <=? 79 + 1) with true.
  cbn [cursor_row cursor_col set_pos poke store].
  assert (Hs : (MAX_ROWS <=? cursor_row s + 1) = false)
    by (apply Z.leb_gt; unfold MAX_ROWS; lia).
  rewrite Hs.
  split_ands; try reflexivity.
  intros j. apply (peek_store _ _ s j).
Qed.

(** A newline above the last row only moves the cursor. *)
Lemma putchar_newline s :
  0 <= cursor_row s < 24 ->
  let s' := screen_putchar 10 s in
  cursor_row s' = cursor_row s + 1
  /\ cursor_col s' = 0
  /\ current_color s' = current_color s
  /\ forall j, peek s' j = peek s j.
Proof.
  intros Hr. unfold screen_putchar, putchar_switch.
  change (10 =? 10) with true. cbv zeta. cbn [cursor_row cursor_col set_pos].
  change (MAX_COLS <=? 0) with false. cbn [cursor_row cursor_col set_pos poke store].
  assert (Hs : (MAX_ROWS <=? cursor_row s + 1) = false)
    by (apply Z.leb_gt; unfold MAX_ROWS; lia).
  rewrite Hs. split_ands; reflexivity.
Qed.

(** A newline in the last row scrolls. *)
Lemma putchar_newline_scroll s :
  cursor_row s = 24 ->
  let s' := screen_putchar 10 s in
  cursor_row s' = 24
  /\ cursor_col s' = 0
  /\ current_color s' = current_color s
  /\ forall j, peek s' j
       = if decide (1920 <= j < 2000) then glyph (current_color s) 32
         else if decide (0 <= j < 1920) then peek s (j + 80)
         else peek s j.
Proof.
  intros Hr. unfold screen_putchar, putchar_switch.
  change (10 =? 10) with true. cbv zeta. cbn [cursor_row cursor_col set_pos].
  change (MAX_COLS <=? 0) with false. cbn [cursor_row cursor_col set_pos poke store].
  rewrite Hr. change (MAX_ROWS <=? 24 + 1) with true. cbv iota.
  rewrite row_update_cursor, col_update_cursor, color_update_cursor.
  rewrite scroll_up_color.
  split_ands; try reflexivity.
  intros j. rewrite peek_update_cursor, scroll_up_peek. reflexivity.
Qed.

(** *** A run of plain characters inside one row *)

Lemma putchars_plain cs :
  forall s,
  Forall plain cs -> cursor_ok s ->
  cursor_col s + Z.of_nat (length cs) < 80 ->
  let s' := putchars cs s in
  cursor_row s' = cursor_row s
  /\ cursor_col s' = cursor_col s + Z.of_nat (length cs)
  /\ current_color s' = current_color s
  /\ forall j,
       peek s' j
       = if decide (0 <= j - get_offset (cursor_row s) (cursor_col s)
                    < Z.of_nat (length cs))
         then glyph (current_color s)
                (nth (Z.to_nat (j - get_offset (cursor_row s) (cursor_col s)))
                     cs 32)
         else peek s j.
Proof.
  induction cs as [|c cs IH]; intros s Hplain Hok Hfit.
  - cbn. split_ands; try lia; try reflexivity.
    intros j. destruct (decide _); [lia|reflexivity].
  - apply Forall_cons in Hplain as [Hc Hcs].
    cbn [length] in Hfit |- *.
    destruct (putchar_plain c s Hc Hok ltac:(lia)) as (R1 & C1 & K1 & P1).
    assert (Hok1 : cursor_ok (screen_putchar c s))
      by (unfold cursor_ok in *; rewrite R1, C1; lia).
    destruct (IH (screen_putchar c s) Hcs Hok1 ltac:(rewrite C1; lia))
      as (R2 & C2 & K2 & P2).
    change (putchars (c :: cs) s) with (putchars cs (screen_putchar c s)).
    cbv zeta. rewrite R2, C2, K2, R1, C1, K1.
    split_ands; try lia; try reflexivity.
    intros j. rewrite P2, P1, R1, C1, K1. unfold get_offset, MAX_COLS.
    repeat destruct (decide _); try lia; try reflexivity.
    + replace (Z.to_nat (j - (cursor_row s * 80 + cursor_col s)))
        with (S (Z.to_nat (j - (cursor_row s * 80 + (cursor_col s + 1)))))
        by lia.
      reflexivity.
    + replace (j - (cursor_row s * 80 + cursor_col s)) with 0 by lia.
      reflexivity.
Qed.

(** *** Pages of lines *)

(** The screen shows [page] when every cell of row [r] holds the
    character of line [r] in that column, and a space past the end of the
    line and in the rows below the last line. *)
Definition shows (s : screen) (page : list (list Z)) : Prop :=
  forall r c : nat, (r < 25)%nat -> (c < 80)%nat ->
    peek s (Z.of_nat r * 80 + Z.of_nat c)
    = glyph (current_color s) (nth c (nth r page []) 32).

Definition line_ok (l : list Z) : Prop :=
  Forall plain l /\ (length l < 80)%nat.

Lemma nth_nil_nil (r c : nat) : nth c (nth r ([] : list (list Z)) []) 32 = 32.
Proof. destruct r, c; reflexivity. Qed.

Lemma screen_clear_shows s : shows (screen_clear s) [].
Proof.
  intros r c Hr Hc. rewrite screen_clear_peek, screen_clear_color, nth_nil_nil.
  destruct (decide _); [reflexivity|lia].
Qed.

(** The text of a line, written at the start of the first free row. *)
Lemma putchars_shows s page l :
  shows s page ->
  cursor_row s = Z.of_nat (length page) -> cursor_col s = 0 ->
  (length page < 25)%nat -> line_ok l ->
  let s' := putchars l s in
  shows s' (page ++ [l])
  /\ cursor_row s' = Z.of_nat (length page)
  /\ cursor_col s' = Z.of_nat (length l)
  /\ current_color s' = current_color s.
Proof.
  intros Hshow Hrow Hcol Hlen [Hplain Hshort].
  assert (Hok : cursor_ok s) by (unfold cursor_ok; lia).
  destruct (putchars_plain l s Hplain Hok ltac:(lia)) as (R & C & K & P).
  cbv zeta. rewrite R, C, K, Hrow, Hcol. split_ands; try lia; try reflexivity.
  intros r c Hr Hc. rewrite P, K, Hrow, Hcol. unfold get_offset, MAX_COLS.
  destruct (decide _) as [Hin|Hout].
  - assert (r = length page) by lia. subst r.
    rewrite nth_middle.
    replace (Z.to_nat _) with c by lia. reflexivity.
  - rewrite Hshow by assumption. f_equal.
    destruct (Nat.lt_trichotomy r (length page)) as [Hlt|[Heq|Hgt]].
    + rewrite app_nth1 by assumption. reflexivity.
    + subst r. rewrite nth_middle.
      rewrite (nth_overflow page) by lia.
      rewrite (nth_overflow l) by lia. destruct c; reflexivity.
    + rewrite (nth_overflow (page ++ [l])) by (rewrite length_app; cbn; lia).
      rewrite (nth_overflow page) by lia. reflexivity.
Qed.

(** A whole line, while rows remain free below it. *)
Lemma put_line_shows s page l :
  shows s page ->
  cursor_row s = Z.of_nat (length page) -> cursor_col s = 0 ->
  (length page < 24)%nat -> line_ok l ->
  let s' := put_line l s in
  shows s' (page ++ [l])
  /\ cursor_row s' = Z.of_nat (length (page ++ [l]))
  /\ cursor_col s' = 0
  /\ current_color s' = current_color s.
Proof.
  intros Hshow Hrow Hcol Hlen Hl.
  destruct (putchars_shows s page l Hshow Hrow Hcol ltac:(lia) Hl)
    as (S1 & R1 & C1 & K1).
  destruct (putchar_newline (putchars l s) ltac:(lia)) as (R2 & C2 & K2 & P2).
  unfold put_line. cbv zeta. rewrite R2, C2, K2, R1, K1, length_app.
  split_ands; try (cbn; lia); try reflexivity.
  intros r c Hr Hc. rewrite P2, K2. apply S1; assumption.
Qed.

(** A whole line written in the last row: the newline scrolls. *)
Lemma put_line_scrolls s page l :
  shows s page ->
  cursor_row s = 24 -> cursor_col s = 0 ->
  length page = 24%nat -> line_ok l ->
  let s' := put_line l s in
  shows s' (drop 1 (page ++ [l]))
  /\ cursor_row s' = 24
  /\ cursor_col s' = 0
  /\ current_color s' = current_color s.
Proof.
  intros Hshow Hrow Hcol Hlen Hl.
  destruct (putchars_shows s page l Hshow ltac:(lia) Hcol ltac:(lia) Hl)
    as (S1 & R1 & C1 & K1).
  destruct (putchar_newline_scroll (putchars l s) ltac:(lia))
    as (R2 & C2 & K2 & P2).
  unfold put_line. cbv zeta. rewrite R2, C2, K2, K1.
  split_ands; try reflexivity.
  intros r c Hr Hc. rewrite P2, K2.
  destruct (page ++ [l]) as [|l0 rest] eqn:E.
  { destruct page; discriminate. }
  change (drop 1 (l0 :: rest)) with rest.
  assert (Hrest : length rest = 24%nat).
  { apply (f_equal length) in E. rewrite length_app in E. cbn in E. lia. }
  repeat destruct (decide _); try lia.
  - rewrite (nth_overflow rest) by lia. destruct c; reflexivity.
  - replace (Z.of_nat r * 80 + Z.of_nat c + 80)
      with (Z.of_nat (S r) * 80 + Z.of_nat c) by lia.
    rewrite S1 by lia. rewrite K1. reflexivity.
Qed.

Lemma put_lines_shows ls :
  forall s page,
  shows s page ->
  cursor_row s = Z.of_nat (length page) -> cursor_col s = 0 ->
  (length page + length ls <= 24)%nat -> Forall line_ok ls ->
  let s' := put_lines ls s in
  shows s' (page ++ ls)
  /\ cursor_row s' = Z.of_nat (length (page ++ ls))
  /\ cursor_col s' = 0
  /\ current_color s' = current_color s.
Proof.
  induction ls as [|l ls IH]; intros s page Hshow Hrow Hcol Hlen Hok.
  - cbn. rewrite app_nil_r. split_ands; try assumption; reflexivity.
  - apply Forall_cons in Hok as [Hl Hls]. cbn [length] in Hlen.
    destruct (put_line_shows s page l Hshow Hrow Hcol ltac:(lia) Hl)
      as (S1 & R1 & C1 & K1).
    destruct (IH (put_line l s) (page ++ [l]) S1 R1 C1
                ltac:(rewrite length_app; cbn; lia) Hls)
      as (S2 & R2 & C2 & K2).
    change (put_lines (l :: ls) s) with (put_lines ls (put_line l s)).
    cbv zeta. rewrite <- app_assoc in S2, R2. cbn [app] in S2, R2.
    rewrite K2, K1. split_ands; try assumption; reflexivity.
Qed.

Lemma snoc_split {A : Type} (l : list A) (n : nat) :
  length l = S n -> exists l' x, l = l' ++ [x] /\ length l' = n.
Proof.
  destruct l as [|x l' _] using rev_ind; [discriminate|].
  rewrite length_app. cbn. intros H. exists l', x. split; [reflexivity|lia].
Qed.

Lemma putchars_app cs1 cs2 s :
  putchars (cs1 ++ cs2) s = putchars cs2 (putchars cs1 s).
Proof. apply fold_left_app. Qed.

Lemma put_lines_snoc ls l s :
  put_lines (ls ++ [l]) s = put_line l (put_lines ls s).
Proof. apply fold_left_app. Qed.

(** 81 plain characters on a cleared screen: 80 fill the first row, the
    last one stands at the start of the second. *)
Lemma putchars_one_past_row s0 cs :
  length cs = 81%nat -> Forall plain cs ->
  let s := putchars cs (screen_clear s0) in
  cursor_row s = 1 /\ cursor_col s = 1
  /\ forall i, (i < 81)%nat ->
       peek s (Z.of_nat i) = glyph (current_color s0) (nth i cs 32).
Proof.
  intros Hlen Hplain.
  destruct (snoc_split cs 80 Hlen) as (cs' & b & -> & Hlen').
  destruct (snoc_split cs' 79 Hlen') as (l & a & -> & Hl).
  apply Forall_app in Hplain as [Hplain Hb].
  apply Forall_app in Hplain as [Hplain Ha].
  apply Forall_cons in Ha as [Ha _]. apply Forall_cons in Hb as [Hb _].
  destruct (screen_clear_cursor s0) as [R0 C0].
  pose proof (screen_clear_color s0) as K0.
  destruct (putchars_plain l (screen_clear s0) Hplain
              ltac:(unfold cursor_ok; lia) ltac:(lia))
    as (R1 & C1 & K1 & P1).
  rewrite R0 in R1. rewrite C0, Hl in C1. rewrite K0 in K1.
  set (s1 := putchars l (screen_clear s0)) in *.
  destruct (putchar_plain_wrap a s1 Ha ltac:(lia) ltac:(lia))
    as (R2 & C2 & K2 & P2).
  set (s2 := screen_putchar a s1) in *.
  destruct (putchar_plain b s2 Hb ltac:(unfold cursor_ok; lia) ltac:(lia))
    as (R3 & C3 & K3 & P3).
  cbv zeta. rewrite !putchars_app.
  change (putchars [b] (putchars [a] (putchars l (screen_clear s0))))
    with (screen_putchar b s2).
  split_ands; try lia.
  intros i Hi. rewrite P3, P2, P1.
  rewrite ?R2, ?C2, ?K2, ?R1, ?C1, ?K1, ?R0, ?C0, ?K0, ?Hl.
  unfold get_offset, MAX_COLS.
  repeat destruct (decide _); try lia.
  - assert (i = 80%nat) by lia. subst i.
    rewrite app_nth2 by (rewrite length_app; cbn; lia).
    rewrite length_app, Hl. reflexivity.
  - assert (i = 79%nat) by lia. subst i.
    rewrite app_nth1 by (rewrite length_app; cbn; lia).
    rewrite app_nth2 by lia. rewrite Hl. reflexivity.
  - rewrite app_nth1 by (rewrite length_app; cbn; lia).
    rewrite app_nth1 by lia.
    replace (Z.to_nat _) with i by lia. reflexivity.
Qed.

(** C5. On a freshly cleared screen, 81 calls of [screen_putchar] with
    plain characters (no newline, carriage return, backspace or tab) leave
    the cursor at row 1, column 1, the 81st character standing in the
    first cell of the second row.  And 25 newline-terminated lines (each
    shorter than a row) scroll at the last newline: just before it the
    screen shows all 25 lines; immediately after it the cursor is at
    (24, 0), every row shows the line that stood one row below, so the
    first line is gone from the top row, and the bottom row is blank. *)
Theorem wrap_and_scroll (s0 : screen) (cs : list Z) (ls : list (list Z)) :
  length cs = 81%nat -> Forall plain cs ->
  length ls = 25%nat -> Forall line_ok ls ->
  (let s := putchars cs (screen_clear s0) in
   cursor_row s = 1 /\ cursor_col s = 1
   /\ forall i, (i < 81)%nat ->
        peek s (Z.of_nat i) = glyph (current_color s0) (nth i cs 32))
  /\ (let before :=
        putchars (nth 24 ls []) (put_lines (take 24 ls) (screen_clear s0)) in
      let after := put_lines ls (screen_clear s0) in
      after = screen_putchar 10 before
      /\ cursor_row before = 24
      /\ shows before ls
      /\ cursor_row after = 24 /\ cursor_col after = 0
      /\ shows after (drop 1 ls)
      /\ (forall c, (c < 80)%nat ->
            peek after (Z.of_nat c)
            = glyph (current_color s0) (nth c (nth 1 ls []) 32))
      /\ (forall c, (c < 80)%nat ->
            peek after (24 * 80 + Z.of_nat c) = glyph (current_color s0) 32)).
Proof.
  intros Hcs Hplain Hls Hok. split.
  - apply putchars_one_past_row; assumption.
  - destruct (snoc_split ls 24 Hls) as (page & l & -> & Hpage).
    apply Forall_app in Hok as [Hpage_ok Hl].
    apply Forall_cons in Hl as [Hl _].
    cbv zeta.
    replace (take 24 (page ++ [l])) with page
      by (rewrite <- Hpage, take_app_length; reflexivity).
    replace (nth 24 (page ++ [l]) []) with l
      by (rewrite <- Hpage, nth_middle; reflexivity).
    destruct (screen_clear_cursor s0) as [R0 C0].
    pose proof (screen_clear_color s0) as K0.
    destruct (put_lines_shows page (screen_clear s0) []
                (screen_clear_shows s0) R0 C0 ltac:(cbn; lia) Hpage_ok)
      as (S1 & R1 & C1 & K1).
    cbn [app] in S1, R1. rewrite Hpage in R1. rewrite K0 in K1.
    set (s1 := put_lines page (screen_clear s0)) in *.
    destruct (putchars_shows s1 page l S1 ltac:(lia) C1 ltac:(lia) Hl)
      as (S2 & R2 & _ & _).
    destruct (put_line_scrolls s1 page l S1 R1 C1 Hpage Hl)
      as (S3 & R3 & C3 & K3).
    rewrite put_lines_snoc. fold s1.
    change (put_line l s1) with (screen_putchar 10 (putchars l s1)) in *.
    rewrite K1 in K3.
    split_ands; try assumption; try reflexivity; try lia.
    + intros c Hc. specialize (S3 0%nat c ltac:(lia) Hc).
      rewrite K3 in S3.
      change (Z.of_nat 0 * 80 + Z.of_nat c) with (Z.of_nat c) in S3.
      rewrite S3. destruct page as [|l1 page]; [discriminate Hpage|].
      reflexivity.
    + intros c Hc. specialize (S3 24%nat c ltac:(lia) Hc).
      rewrite K3 in S3.
      change (Z.of_nat 24) with 24 in S3. rewrite S3.
      rewrite (nth_overflow (drop 1 (page ++ [l]))).
      * destruct c; reflexivity.
      * rewrite length_drop, length_app, Hpage. cbn. lia.
Qed.

Lemma wrap_and_scroll_witness :
  let s0 := boot_screen ∅ in
  let cs := replicate 81 65 in
  let ls := replicate 25 [66] in
  cursor_row (putchars cs (screen_clear s0)) = 1
  /\ cursor_col (putchars cs (screen_clear s0)) = 1
  /\ peek (putchars cs (screen_clear s0)) 80 = glyph DEFAULT_COLOR 65
  /\ peek (put_lines ls (screen_clear s0)) (24 * 80 + 0)
     = glyph DEFAULT_COLOR 32.
Proof.
  intros s0 cs ls.
  assert (Hplain : forall c, 32 < c -> plain c) by (unfold plain; lia).
  destruct (wrap_and_scroll s0 cs ls) as [(R & C & P) (_ & _ & _ & _ & _ & _ & _ & B)].
  - reflexivity.
  - apply Forall_replicate, Hplain. lia.
  - reflexivity.
  - apply Forall_replicate. split; [|cbn; lia].
    apply Forall_cons. split; [apply Hplain; lia|apply Forall_nil_2].
  - split_ands; [exact R|exact C|exact (P 80%nat ltac:(lia))
                |exact (B 0%nat ltac:(lia))].
Defined.

(** *** The cursor invariant *)

(** The calls of the driver's interface that move the cursor. *)
Inductive call :=
| Putchar (c : Z)
| Write (str : list Z)
| Backspace
| SetCursor (row col : Z).

Definition do_call (k : call) (s : screen) : screen :=
  match k with
  | Putchar c => screen_putchar c s
  | Write str => screen_write str s
  | Backspace => screen_backspace s
  | SetCursor row col => screen_set_cursor row col s
  end.

Definition do_calls (ks : list call) (s : screen) : screen :=
  fold_left (fun t k => do_call k t) ks s.

(** The cursor is on the screen, and memory outside the grid reads as it
    did in [s0]. *)
Definition on_screen (s0 s : screen) : Prop :=
  cursor_ok s /\ forall j, ~ in_grid j -> peek s j = peek s0 j.

Lemma tab_stop col :
  0 <= col <= 79 -> 8 <= Z.land (col + 8) (Z.lnot 7) <= 80.
Proof.
  intros Hcol. rewrite <- Z.ldiff_land.
  change 7 with (Z.ones 3). rewrite Z.ldiff_ones_r by lia.
  rewrite Z.shiftl_mul_pow2, Z.shiftr_div_pow2 by lia.
  change (2 ^ 3) with 8.
  pose proof (Z.div_mod (col + 8) 8 ltac:(lia)).
  pose proof (Z.mod_pos_bound (col + 8) 8 ltac:(lia)). lia.
Qed.

Lemma cursor_ok_offset s :
  cursor_ok s -> in_grid (get_offset (cursor_row s) (cursor_col s)).
Proof. unfold cursor_ok, in_grid, get_offset, MAX_ROWS, MAX_COLS. lia. Qed.

Lemma putchar_switch_range c s :
  cursor_ok s ->
  let s1 := putchar_switch c s in
  0 <= cursor_row s1 <= 25 /\ 0 <= cursor_col s1 <= 80
  /\ (cursor_col s1 = 80 -> cursor_row s1 <= 24)
  /\ forall j, ~ in_grid j -> peek s1 j = peek s j.
Proof.
  intros [Hr Hc]. unfold putchar_switch.
  destruct (c =? 10); [cbn; split_ands; try lia; reflexivity|].
  destruct (c =? 13); [cbn; split_ands; try lia; reflexivity|].
  destruct (c =? 8).
  { destruct (Z.ltb_spec 0 (cursor_col s)).
    - cbv zeta. cbn [cursor_row cursor_col set_pos poke store].
      split_ands; try lia.
      intros j Hj. unfold poke. rewrite peek_store, peek_set_pos.
      destruct (decide _) as [E|]; [|reflexivity].
      exfalso. apply Hj. rewrite <- E.
      unfold in_grid, get_offset, MAX_ROWS, MAX_COLS. lia.
    - split_ands; try lia; reflexivity. }
  destruct (c =? 9).
  { pose proof (tab_stop (cursor_col s) Hc) as Ht.
    cbv zeta. cbn [cursor_row cursor_col set_pos].
    destruct (Z.leb_spec MAX_COLS (Z.land (cursor_col s + 8) (Z.lnot 7)));
      cbn [cursor_row cursor_col set_pos];
      split_ands; unfold MAX_COLS in *; try lia; reflexivity. }
  cbv zeta. cbn [cursor_row cursor_col set_pos poke store].
  split_ands; try lia.
  intros j Hj. unfold poke. rewrite peek_set_pos, peek_store.
  destruct (decide _) as [E|]; [|reflexivity].
  exfalso. apply Hj. rewrite <- E. apply cursor_ok_offset. split; assumption.
Qed.

Lemma screen_putchar_on_screen c s0 s :
  on_screen s0 s -> on_screen s0 (screen_putchar c s).
Proof.
  intros [Hok Hout].
  destruct (putchar_switch_range c s Hok) as (Hr & Hc & Hedge & Hout1).
  unfold screen_putchar. cbv zeta.
  set (s1 := putchar_switch c s) in *.
  assert (H2 : exists s2,
             (if MAX_COLS <=? cursor_col s1
              then set_pos (cursor_row s1 + 1) 0 s1 else s1) = s2
             /\ 0 <= cursor_row s2 <= 25 /\ 0 <= cursor_col s2 <= 79
             /\ forall j, peek s2 j = peek s1 j).
  { eexists. split; [reflexivity|].
    destruct (Z.leb_spec MAX_COLS (cursor_col s1)); unfold MAX_COLS in *;
      cbn [cursor_row cursor_col set_pos]; split_ands; try lia; reflexivity. }
  destruct H2 as (s2 & -> & Hr2 & Hc2 & Hp2).
  destruct (Z.leb_spec MAX_ROWS (cursor_row s2)) as [Hfull|Hfree];
    unfold MAX_ROWS in *.
  - split.
    + unfold cursor_ok.
      rewrite row_update_cursor, col_update_cursor.
      destruct (scroll_up_cursor s2) as [-> ->]. lia.
    + intros j Hj. rewrite peek_update_cursor, scroll_up_peek.
      unfold in_grid, MAX_ROWS, MAX_COLS in Hj.
      repeat destruct (decide _); try lia.
      rewrite Hp2, Hout1 by exact Hj. apply Hout, Hj.
  - split.
    + unfold cursor_ok. rewrite row_update_cursor, col_update_cursor. lia.
    + intros j Hj. rewrite peek_update_cursor, Hp2, Hout1 by exact Hj.
      apply Hout, Hj.
Qed.

Lemma screen_write_on_screen str :
  forall s0 s, on_screen s0 s -> on_screen s0 (screen_write str s).
Proof.
  induction str as [|c str IH]; intros s0 s Hs; cbn [screen_write].
  - exact Hs.
  - destruct (c =? 0); [exact Hs|].
    apply IH, screen_putchar_on_screen, Hs.
Qed.

Lemma screen_set_cursor_on_screen row col s0 s :
  on_screen s0 s -> on_screen s0 (screen_set_cursor row col s).
Proof.
  intros [[Hr Hc] Hout]. unfold screen_set_cursor. cbv zeta.
  split.
  - unfold cursor_ok. rewrite row_update_cursor, col_update_cursor.
    destruct (Z.leb_spec 0 row), (Z.ltb_spec row MAX_ROWS),
             (Z.leb_spec 0 col), (Z.ltb_spec col MAX_COLS);
      unfold MAX_ROWS, MAX_COLS in *;
      cbn [andb cursor_row cursor_col set_pos]; lia.
  - intros j Hj. rewrite peek_update_cursor, <- (Hout j Hj).
    destruct ((0 <=? row) && (row <? MAX_ROWS)),
             ((0 <=? col) && (col <? MAX_COLS)); reflexivity.
Qed.

Lemma screen_clear_on_screen s0 : on_screen s0 (screen_clear s0).
Proof.
  split.
  - unfold cursor_ok. destruct (screen_clear_cursor s0) as [-> ->]. lia.
  - intros j Hj. rewrite screen_clear_peek.
    unfold in_grid, MAX_ROWS, MAX_COLS in Hj.
    destruct (decide _); [lia|reflexivity].
Qed.

(** C9. After [screen_clear], every sequence of calls of [screen_putchar],
    [screen_write], [screen_backspace] and [screen_set_cursor] leaves
    0 <= cursor_row <= 24 and 0 <= cursor_col <= 79, so the offset
    row*80+col the next [screen_putchar] writes at lies in the 2000-cell
    grid; and none of the calls has written outside the grid. *)
Theorem cursor_stays_on_screen (s0 : screen) (ks : list call) :
  let s := do_calls ks (screen_clear s0) in
  (0 <= cursor_row s <= 24 /\ 0 <= cursor_col s <= 79)
  /\ 0 <= get_offset (cursor_row s) (cursor_col s) < 2000
  /\ forall j, ~ (0 <= j < 2000) -> peek s j = peek s0 j.
Proof.
  cbv zeta.
  assert (H : on_screen s0 (do_calls ks (screen_clear s0))).
  { generalize (screen_clear_on_screen s0).
    generalize (screen_clear s0) as s.
    induction ks as [|k ks IH]; intros s Hs; [exact Hs|].
    apply (IH (do_call k s)).
    destruct k as [c|str| |row col]; cbn [do_call].
    - apply screen_putchar_on_screen, Hs.
    - apply screen_write_on_screen, Hs.
    - apply screen_putchar_on_screen, Hs.
    - apply screen_set_cursor_on_screen, Hs. }
  destruct H as [Hok Hout].
  split; [exact Hok|split; [exact (cursor_ok_offset _ Hok)|exact Hout]].
Qed.

(** *** Numbers *)

#[local] Arguments screen_putchar : simpl never.

(** The number a string of decimal digits reads as. *)
Definition decimal_value (ds : list Z) : Z :=
  fold_left (fun acc d => acc * 10 + (d - 48)) ds 0.

Definition is_digit (d : Z) : Prop := 48 <= d <= 57.

Lemma fold_right_putchars l s :
  fold_right screen_putchar s l = putchars (rev l) s.
Proof.
  unfold putchars. rewrite <- fold_left_rev_right, rev_involutive. reflexivity.
Qed.

Lemma decimal_value_snoc ds d :
  decimal_value (ds ++ [d]) = decimal_value ds * 10 + (d - 48).
Proof. unfold decimal_value. rewrite fold_left_app. reflexivity. Qed.

Lemma dec_buffer_digits fuel :
  forall n, 0 <= n < 10 ^ Z.of_nat fuel ->
  let ds := rev (dec_buffer fuel n) in
  Forall is_digit ds
  /\ decimal_value ds = n
  /\ (length ds <= fuel)%nat
  /\ (0 < n -> exists d rest, ds = d :: rest /\ d <> 48).
Proof.
  induction fuel as [|fuel IH]; intros n Hn.
  - change (10 ^ Z.of_nat 0) with 1 in Hn. assert (n = 0) by lia. subst n.
    cbn. split_ands; try constructor; try reflexivity. lia.
  - cbn [dec_buffer]. destruct (Z.ltb_spec 0 n) as [Hpos|Hzero].
    + assert (Hq : 0 <= n / 10 < 10 ^ Z.of_nat fuel).
      { rewrite Nat2Z.inj_succ, Z.pow_succ_r in Hn by lia.
        split; [apply Z.div_pos; lia|apply Z.div_lt_upper_bound; lia]. }
      destruct (IH (n / 10) Hq) as (Hd & Hv & Hl & Hlead).
      cbv zeta. cbn [rev].
      pose proof (Z.mod_pos_bound n 10 ltac:(lia)) as Hm.
      split_ands.
      * apply Forall_app. split; [exact Hd|].
        constructor; [unfold is_digit; lia|constructor].
      * rewrite decimal_value_snoc, Hv.
        pose proof (Z.div_mod n 10 ltac:(lia)). lia.
      * rewrite length_app. cbn [length]. lia.
      * intros _. destruct (Z.ltb_spec 0 (n / 10)) as [Hbig|Hsmall].
        -- destruct (Hlead Hbig) as (d & rest & -> & Hne).
           exists d, (rest ++ [48 + n mod 10]). split; [reflexivity|exact Hne].
        -- assert (Hz : n / 10 = 0) by lia. rewrite Hz.
           assert (Hnz : n mod 10 <> 0)
             by (generalize Hz Hpos; clear; intros;
                 Z.to_euclidean_division_equations; lia).
           destruct fuel; cbn [dec_buffer rev app];
             (eexists; eexists; split; [reflexivity|lia]).
    + assert (n = 0) by lia. subst n. cbn.
      split_ands; try constructor; try reflexivity; lia.
Qed.

(** [screen_write_dec] prints the decimal numeral of its argument: between
    one and ten digit characters, most significant first and without a
    leading zero, that read back as the number. *)
Theorem write_dec_prints_the_numeral (n : Z) (s : screen) :
  exists ds,
    screen_write_dec n s = putchars ds s
    /\ Forall is_digit ds
    /\ decimal_value ds = wrap32 n
    /\ (1 <= length ds <= 10)%nat
    /\ (length ds = 1%nat \/ hd 0 ds <> 48).
Proof.
  unfold screen_write_dec.
  pose proof (Z.mod_pos_bound n 4294967296 ltac:(lia)) as Hn.
  fold (wrap32 n) in Hn.
  destruct (Z.eqb_spec (wrap32 n) 0) as [E|E].
  - exists [48]. rewrite E. split_ands; try reflexivity; try (cbn; lia).
    repeat constructor; unfold is_digit; lia.
  - destruct (dec_buffer_digits 10 (wrap32 n) ltac:(change (10 ^ Z.of_nat 10) with 10000000000; lia))
      as (Hd & Hv & Hl & Hlead).
    exists (rev (dec_buffer 10 (wrap32 n))).
    rewrite fold_right_putchars.
    destruct (Hlead ltac:(lia)) as (d & rest & Hds & Hne).
    split; [reflexivity|]. split; [exact Hd|]. split; [exact Hv|].
    split; [|right; rewrite Hds; exact Hne].
    rewrite Hds in *. cbn [length] in *. lia.
Qed.

(** The number a string of hexadecimal digits reads as. *)
Definition hex_digit_value (d : Z) : Z := if d <=? 57 then d - 48 else d - 55.

Definition hex_value (ds : list Z) : Z :=
  fold_left (fun acc d => acc * 16 + hex_digit_value d) ds 0.

Definition is_hex_digit (d : Z) : Prop := 48 <= d <= 57 \/ 65 <= d <= 70.

Definition nibble (n i : Z) : Z := Z.land (Z.shiftr n i) 15.

Lemma nibble_div n i : 0 <= i -> nibble n i = (n / 2 ^ i) mod 16.
Proof.
  intros Hi. unfold nibble. change 15 with (Z.ones 4).
  rewrite Z.land_ones, Z.shiftr_div_pow2 by lia. reflexivity.
Qed.

Lemma hex_chars_decode k :
  0 <= k < 16 ->
  is_hex_digit (hex_chars !!! Z.to_nat k)
  /\ hex_digit_value (hex_chars !!! Z.to_nat k) = k.
Proof.
  intros Hk. rewrite <- (Z2Nat.id k) at 3 by lia.
  assert (Hm : (Z.to_nat k < 16)%nat) by lia.
  generalize dependent (Z.to_nat k). clear. intros m Hm.
  do 16 (destruct m as [|m]; [unfold is_hex_digit; vm_compute; split; [|reflexivity]; intuition discriminate|]).
  lia.
Qed.

(** [screen_write_hex] prints 0x and then the eight uppercase hexadecimal
    digits of its argument, most significant first. *)
Theorem write_hex_prints_eight_digits (n : Z) (s : screen) :
  exists ds,
    screen_write_hex n s = putchars (bytes_of "0x" ++ ds) s
    /\ length ds = 8%nat
    /\ Forall is_hex_digit ds
    /\ hex_value ds = wrap32 n.
Proof.
  pose proof (Z.mod_pos_bound n 4294967296 ltac:(lia)) as Hn.
  fold (wrap32 n) in Hn. unfold screen_write_hex.
  generalize dependent (wrap32 n). clear n. intros N HN.
  exists (map (fun i => hex_chars !!! Z.to_nat (nibble N i))
              [28; 24; 20; 16; 12; 8; 4; 0]).
  assert (Hnib : forall i, 0 <= i -> 0 <= nibble N i < 16).
  { intros i Hi. rewrite nibble_div by exact Hi. apply Z.mod_pos_bound. lia. }
  split; [reflexivity|]. split; [reflexivity|]. split.
  - cbn [map].
    repeat (constructor; [apply hex_chars_decode, Hnib; lia|]). constructor.
  - unfold hex_value. cbn [map fold_left].
    rewrite !(fun i H => proj2 (hex_chars_decode (nibble N i) (Hnib i H))) by lia.
    rewrite !nibble_div by lia.
    change (2 ^ 0) with 1. change (2 ^ 4) with 16. change (2 ^ 8) with 256.
    change (2 ^ 12) with 4096. change (2 ^ 16) with 65536.
    change (2 ^ 20) with 1048576. change (2 ^ 24) with 16777216.
    change (2 ^ 28) with 268435456.
    Z.to_euclidean_division_equations. lia.
Qed.

(** *** The hardware cursor *)

(** The cursor position the CRT controller was last given: the data bytes
    of the last two index/data pairs, if they select registers 14 and 15. *)
Definition programmed_cursor (s : screen) : option Z :=
  match ports s with
  | (p4, lo) :: (p3, r3) :: (p2, hi) :: (p1, r1) :: _ =>
      if (p1 =? VGA_CTRL_REGISTER) && (r1 =? VGA_CURSOR_LOC_HIGH)
         && (p2 =? VGA_DATA_REGISTER)
         && (p3 =? VGA_CTRL_REGISTER) && (r3 =? VGA_CURSOR_LOC_LOW)
         && (p4 =? VGA_DATA_REGISTER)
      then Some (hi * 256 + lo) else None
  | _ => None
  end.

Definition cursor_programmed (s : screen) : Prop :=
  programmed_cursor s = Some (get_offset (cursor_row s) (cursor_col s)).

Lemma update_cursor_programs t :
  cursor_ok t -> cursor_programmed (update_cursor t).
Proof.
  intros [Hr Hc]. unfold cursor_programmed.
  rewrite row_update_cursor, col_update_cursor.
  unfold update_cursor, programmed_cursor, write_port. cbv zeta.
  cbn [ports]. rewrite !Z.eqb_refl. cbn [andb]. f_equal.
  unfold get_offset, MAX_COLS, wrap16, wrap8 in *.
  set (pos := cursor_row t * 80 + cursor_col t).
  assert (Hpos : 0 <= pos < 2000) by (unfold pos; lia).
  clearbody pos. change 255 with (Z.ones 8).
  rewrite !Z.land_ones, Z.shiftr_div_pow2 by lia. change (2 ^ 8) with 256.
  Z.to_euclidean_division_equations. lia.
Qed.

Lemma screen_putchar_programs c s0 s :
  on_screen s0 s -> cursor_programmed (screen_putchar c s).
Proof.
  intros Hs. destruct (screen_putchar_on_screen c s0 s Hs) as [Hok _].
  unfold screen_putchar in *. cbv zeta in *.
  apply update_cursor_programs. exact Hok.
Qed.

Lemma screen_write_programs str :
  forall s0 s, on_screen s0 s -> cursor_programmed s ->
  cursor_programmed (screen_write str s).
Proof.
  induction str as [|c str IH]; intros s0 s Hs Hp; cbn [screen_write].
  - exact Hp.
  - destruct (c =? 0); [exact Hp|].
    apply (IH s0).
    + apply screen_putchar_on_screen, Hs.
    + apply (screen_putchar_programs c s0), Hs.
Qed.

Lemma do_call_on_screen k s0 s : on_screen s0 s -> on_screen s0 (do_call k s).
Proof.
  intros Hs. destruct k as [c|str| |row col]; cbn [do_call].
  - apply screen_putchar_on_screen, Hs.
  - apply screen_write_on_screen, Hs.
  - apply screen_putchar_on_screen, Hs.
  - apply screen_set_cursor_on_screen, Hs.
Qed.

Lemma do_calls_on_screen ks :
  forall s0 s, on_screen s0 s -> on_screen s0 (do_calls ks s).
Proof.
  induction ks as [|k ks IH]; intros s0 s Hs; [exact Hs|].
  apply (IH s0 (do_call k s)), do_call_on_screen, Hs.
Qed.

(** After [screen_clear], and after each later call of [screen_putchar],
    [screen_write], [screen_backspace] and [screen_set_cursor], the CRT
    controller's cursor registers 14 and 15 hold the position row*80+col
    of the driver's cursor: the blinking cursor is where the next
    character goes. *)
Theorem hardware_cursor_follows (s0 : screen) (ks : list call) :
  let s := do_calls ks (screen_clear s0) in
  programmed_cursor s = Some (cursor_row s * 80 + cursor_col s).
Proof.
  cbv zeta.
  assert (H : on_screen s0 (screen_clear s0)
              /\ cursor_programmed (screen_clear s0)).
  { split; [apply screen_clear_on_screen|].
    destruct (screen_clear_on_screen s0) as [Hok _].
    unfold screen_clear in *. apply update_cursor_programs. exact Hok. }
  generalize dependent (screen_clear s0).
  induction ks as [|k ks IH]; intros s [Hs Hp]; [exact Hp|].
  apply (IH (do_call k s)). split; [apply do_call_on_screen, Hs|].
  destruct k as [c|str| |row col]; cbn [do_call].
  - apply (screen_putchar_programs c s0), Hs.
  - apply (screen_write_programs str s0); assumption.
  - apply (screen_putchar_programs 8 s0), Hs.
  - destruct (screen_set_cursor_on_screen row col s0 s Hs) as [Hok _].
    unfold screen_set_cursor in *. cbv zeta in *.
    apply update_cursor_programs. exact Hok.
Qed.

(** *** Backspace, tab, colour *)

(** [screen_backspace] steps back one column and blanks that cell; in
    column 0 it changes neither the cursor nor the text: it never goes
    back to the row above. *)
Theorem backspace_stays_in_its_row (s0 : screen) (ks : list call) :
  let s := do_calls ks (screen_clear s0) in
  let s' := screen_backspace s in
  cursor_row s' = cursor_row s
  /\ current_color s' = current_color s
  /\ (cursor_col s = 0 ->
      cursor_col s' = 0 /\ forall j, peek s' j = peek s j)
  /\ (0 < cursor_col s ->
      cursor_col s' = cursor_col s - 1
      /\ forall j, peek s' j
           = if decide (j = cursor_row s * 80 + cursor_col s - 1)
             then glyph (current_color s) 32 else peek s j).
Proof.
  cbv zeta.
  destruct (do_calls_on_screen ks s0 _ (screen_clear_on_screen s0))
    as [[Hr Hc] _].
  generalize dependent (do_calls ks (screen_clear s0)). intros s Hr Hc.
  unfold screen_backspace, screen_putchar, putchar_switch.
  change (8 =? 10) with false. change (8 =? 13) with false.
  change (8 =? 8) with true. cbv iota.
  destruct (Z.ltb_spec 0 (cursor_col s)) as [Hpos|Hzero].
  - cbv zeta. cbn [cursor_row cursor_col set_pos poke store].
    assert (Hw : (MAX_COLS <=? cursor_col s - 1) = false)
      by (apply Z.leb_gt; unfold MAX_COLS; lia).
    assert (Hs : (MAX_ROWS <=? cursor_row s) = false)
      by (apply Z.leb_gt; unfold MAX_ROWS; lia).
    rewrite Hw. cbn [cursor_row cursor_col set_pos poke store]. rewrite Hs.
    split_ands; try reflexivity; try lia.
    intros _. split; [reflexivity|].
    intros j. rewrite peek_update_cursor.
    unfold poke, blank. cbn [current_color set_pos].
    rewrite peek_store, peek_set_pos. unfold get_offset, MAX_COLS.
    repeat destruct (decide _); try lia; reflexivity.
  - assert (Hw : (MAX_COLS <=? cursor_col s) = false)
      by (apply Z.leb_gt; unfold MAX_COLS; lia).
    assert (Hs : (MAX_ROWS <=? cursor_row s) = false)
      by (apply Z.leb_gt; unfold MAX_ROWS; lia).
    cbv zeta. rewrite Hw, Hs.
    split_ands; try reflexivity; try lia.
    intros _. split; [rewrite col_update_cursor; lia|reflexivity].
Qed.

(** A tab moves the cursor to the next multiple of 8 in its row, and from
    column 72 on to the start of the next row; it writes no cell. *)
Theorem tab_moves_to_next_stop (s : screen) :
  cursor_ok s -> cursor_row s < 24 ->
  let s' := screen_putchar 9 s in
  (cursor_col s < 72 ->
     cursor_row s' = cursor_row s
     /\ cursor_col s' = 8 * (cursor_col s / 8 + 1))
  /\ (72 <= cursor_col s ->
     cursor_row s' = cursor_row s + 1 /\ cursor_col s' = 0)
  /\ forall j, peek s' j = peek s j.
Proof.
  intros [Hr Hc] Hrow. unfold screen_putchar, putchar_switch.
  change (9 =? 10) with false. change (9 =? 13) with false.
  change (9 =? 8) with false. change (9 =? 9) with true. cbv iota zeta.
  cbn [cursor_row cursor_col set_pos].
  assert (Hstop : Z.land (cursor_col s + 8) (Z.lnot 7)
                  = 8 * (cursor_col s / 8 + 1)).
  { rewrite <- Z.ldiff_land. change 7 with (Z.ones 3).
    rewrite Z.ldiff_ones_r, Z.shiftl_mul_pow2, Z.shiftr_div_pow2 by lia.
    change (2 ^ 3) with 8. Z.to_euclidean_division_equations. lia. }
  rewrite Hstop.
  destruct (Z.leb_spec MAX_COLS (8 * (cursor_col s / 8 + 1))) as [Hw|Hw];
    unfold MAX_COLS in Hw; cbn [cursor_row cursor_col set_pos].
  - change (MAX_COLS <=? 0) with false. cbv iota.
    cbn [cursor_row cursor_col set_pos].
    assert (Hs : (MAX_ROWS <=? cursor_row s + 1) = false)
      by (apply Z.leb_gt; unfold MAX_ROWS; lia).
    rewrite Hs. split_ands; try reflexivity.
    + intros Hlt. exfalso. Z.to_euclidean_division_equations. lia.
    + intros _. split; reflexivity.
  - assert (Hw' : (MAX_COLS <=? 8 * (cursor_col s / 8 + 1)) = false)
      by (apply Z.leb_gt; unfold MAX_COLS; lia).
    rewrite Hw'. cbv iota. cbn [cursor_row cursor_col set_pos].
    assert (Hs : (MAX_ROWS <=? cursor_row s) = false)
      by (apply Z.leb_gt; unfold MAX_ROWS; lia).
    rewrite Hs. split_ands; try reflexivity.
    + intros _. split; reflexivity.
    + intros Hge. exfalso. Z.to_euclidean_division_equations. lia.
Qed.

Lemma tab_moves_to_next_stop_witness :
  let s := screen_set_cursor 3 75 (screen_clear (boot_screen ∅)) in
  cursor_row (screen_putchar 9 s) = 4 /\ cursor_col (screen_putchar 9 s) = 0.
Proof.
  cbv zeta.
  set (s := screen_set_cursor 3 75 (screen_clear (boot_screen ∅))).
  assert (Hr : cursor_row s = 3) by reflexivity.
  assert (Hc : cursor_col s = 75) by reflexivity.
  assert (Hok : cursor_ok s) by (unfold cursor_ok; rewrite Hr, Hc; lia).
  assert (Hrow : cursor_row s < 24) by (rewrite Hr; lia).
  destruct (tab_moves_to_next_stop s Hok Hrow) as (_ & Hwrap & _).
  rewrite Hr, Hc in Hwrap. apply Hwrap. lia.
Defined.

Lemma lor_shiftl_add a b k :
  0 <= k -> 0 <= a < 2 ^ k -> Z.lor (Z.shiftl b k) a = b * 2 ^ k + a.
Proof.
  intros Hk Ha.
  assert (Hland : Z.land (Z.shiftl b k) a = 0).
  { apply Z.bits_inj'. intros n Hn. rewrite Z.land_spec, Z.bits_0.
    destruct (Z.lt_ge_cases n k) as [Hlt|Hge].
    - rewrite Z.shiftl_spec_low by exact Hlt. reflexivity.
    - destruct (Z.eq_dec a 0) as [->|Hnz];
        [rewrite Z.bits_0; apply andb_false_r|].
      assert (Hlog : Z.log2 a < k) by (apply Z.log2_lt_pow2; lia).
      rewrite (Z.bits_above_log2 a n) by lia. apply andb_false_r. }
  rewrite <- Z.lxor_lor by exact Hland.
  rewrite <- Z.add_nocarry_lxor by exact Hland.
  rewrite Z.shiftl_mul_pow2 by exact Hk. reflexivity.
Qed.

(** After [screen_set_color fg bg], a printable character is stored with
    the attribute byte bg*16+fg above it: the cell under the cursor reads
    (bg*16+fg)*256 + character, and no other cell changes (the cursor not
    being in the last cell of the screen, where the write is followed by a
    scroll). *)
Theorem colour_goes_into_the_high_byte (fg bg c : Z) (s : screen) :
  0 <= fg < 16 -> 0 <= bg < 16 -> 32 <= c < 127 ->
  cursor_ok s -> cursor_row s < 24 \/ cursor_col s < 79 ->
  let s' := screen_putchar c (screen_set_color fg bg s) in
  forall j, peek s' j
    = if decide (j = cursor_row s * 80 + cursor_col s)
      then (bg * 16 + fg) * 256 + c else peek s j.
Proof.
  intros Hfg Hbg Hc [Hr Hcol] Hroom. cbv zeta.
  assert (Hplain : plain c) by (unfold plain; lia).
  set (t := screen_set_color fg bg s).
  assert (Hcolor : current_color t = bg * 16 + fg).
  { unfold t, screen_set_color. cbn [current_color].
    rewrite Z.lor_comm, (lor_shiftl_add fg bg 4)
      by (change (2 ^ 4) with 16; lia).
    change (2 ^ 4) with 16. unfold wrap8. apply Z.mod_small. lia. }
  assert (Hglyph : glyph (current_color t) c = (bg * 16 + fg) * 256 + c).
  { unfold glyph, cell.
    rewrite Hcolor, lor_shiftl_add by (change (2 ^ 8) with 256; lia).
    change (2 ^ 8) with 256. unfold wrap16. apply Z.mod_small. lia. }
  assert (Hok : cursor_ok t) by (split; assumption).
  intros j.
  destruct (Z.lt_ge_cases (cursor_col s) 79) as [Hlt|Hge].
  - destruct (putchar_plain c t Hplain Hok Hlt) as (_ & _ & _ & Hp).
    rewrite Hp, Hglyph. unfold get_offset, MAX_COLS.
    change (cursor_col t) with (cursor_col s).
    change (cursor_row t) with (cursor_row s).
    repeat destruct (decide _); try lia; reflexivity.
  - assert (Hrow : 0 <= cursor_row t < 24)
      by (change (cursor_row t) with (cursor_row s); lia).
    assert (Hcol79 : cursor_col t = 79)
      by (change (cursor_col t) with (cursor_col s); lia).
    destruct (putchar_plain_wrap c t Hplain Hrow Hcol79) as (_ & _ & _ & Hp).
    rewrite Hp, Hglyph. unfold get_offset, MAX_COLS.
    change (cursor_row t) with (cursor_row s).
    repeat destruct (decide _); try lia; reflexivity.
Qed.

Lemma colour_goes_into_the_high_byte_witness :
  peek (screen_putchar 65 (screen_set_color 14 1 (screen_clear (boot_screen ∅))))
       0 = 7745.
Proof.
  set (s := screen_clear (boot_screen ∅)).
  assert (Hr : cursor_row s = 0) by reflexivity.
  assert (Hc : cursor_col s = 0) by reflexivity.
  assert (Hok : cursor_ok s) by (unfold cursor_ok; rewrite Hr, Hc; lia).
  assert (Hroom : cursor_row s < 24 \/ cursor_col s < 79)
    by (left; rewrite Hr; lia).
  rewrite (colour_goes_into_the_high_byte 14 1 65 s
             ltac:(lia) ltac:(lia) ltac:(lia) Hok Hroom 0).
  rewrite Hr, Hc. reflexivity.
Defined.

(** [screen_set_cursor] takes each coordinate on its own: one inside the
    screen is taken, one outside it is ignored and the old one kept; the
    text is not touched. *)
Theorem set_cursor_ignores_what_is_off_screen (row col : Z) (s : screen) :
  let s' := screen_set_cursor row col s in
  (0 <= row < 25 -> fst (screen_get_cursor s') = row)
  /\ (~ 0 <= row < 25 -> fst (screen_get_cursor s') = cursor_row s)
  /\ (0 <= col < 80 -> snd (screen_get_cursor s') = col)
  /\ (~ 0 <= col < 80 -> snd (screen_get_cursor s') = cursor_col s)
  /\ video_memory s' = video_memory s.
Proof.
  cbv zeta. unfold screen_get_cursor, screen_set_cursor. cbv zeta.
  cbn [fst snd]. rewrite row_update_cursor, col_update_cursor.
  destruct (Z.leb_spec 0 row), (Z.ltb_spec row MAX_ROWS),
           (Z.leb_spec 0 col), (Z.ltb_spec col MAX_COLS);
    unfold MAX_ROWS, MAX_COLS in *;
    cbn [andb cursor_row cursor_col set_pos];
    (split_ands; [intros; lia ..|reflexivity]).
Qed.

End ScreenFacts.

(** ** The keyboard *)

Section KeyboardFacts.

Import Keyboard.

(** What the two contexts do, in the order they do it: an IRQ1 with the
    byte in the data port, or a call of [keyboard_getchar]. *)
Inductive event :=
| Key (port : Z)
| Read.

(** Runs the events; the result lists what each [Read] returned ([None]
    for a call that found the buffer empty). *)
Fixpoint play (es : list event) (k : keyboard) : list (option Z) * keyboard :=
  match es with
  | [] => ([], k)
  | Key port :: rest => play rest (keyboard_handler port k)
  | Read :: rest =>
      match keyboard_getchar k with
      | Some (c, k') => let (out, k'') := play rest k' in (Some c :: out, k'')
      | None => let (out, k'') := play rest k in (None :: out, k'')
      end
  end.

(** Reads until the buffer is empty (at most [fuel] times). *)
Fixpoint drain (fuel : nat) (k : keyboard) : list Z :=
  match fuel with
  | O => []
  | S fuel' =>
      match keyboard_getchar k with
      | Some (c, k') => c :: drain fuel' k'
      | None => []
      end
  end.

(** Both tables have 58 entries, so the bound [sizeof(scancode_to_ascii)]
    of the handler keeps the index inside either of them. *)
Lemma tables_have_58_entries :
  length scancode_to_ascii = 58%nat
  /\ length scancode_to_ascii_shift = 58%nat.
Proof. split; reflexivity. Qed.

(** C6. From the initial state (shift flag clear, buffer empty) the
    scancodes 0x2A (shift press), 0x1E ('a' press), 0xAA (shift release)
    put the single character 'A' in the ring buffer and nothing else: one
    slot written, one character to read, the shift flag clear again. *)
Theorem shift_a_gives_capital_a :
  let k := snd (play [Key 42; Key 30; Key 170] boot_keyboard) in
  key_buffer k = <[0 := ch "A"]> ∅
  /\ buffer_start k = 0 /\ buffer_end k = 1
  /\ shift_pressed k = 0
  /\ drain 256 k = [ch "A"]
  /\ fst (play [Key 42; Key 30; Key 170; Read; Read] boot_keyboard)
     = [Some 65; None].
Proof. cbv zeta. split_ands; vm_compute; reflexivity. Qed.

(** *** The ring buffer against a queue *)

(** The handler's effect on the shift flag and the character it appends,
    if any. *)
Definition next_shift (shift port : Z) : Z :=
  let scancode := wrap8 port in
  if (scancode =? 42) || (scancode =? 54) then 1
  else if (scancode =? 170) || (scancode =? 182) then 0
  else shift.

Definition emits (shift port : Z) : option Z :=
  let scancode := wrap8 port in
  if (scancode =? 42) || (scancode =? 54) then None
  else if (scancode =? 170) || (scancode =? 182) then None
  else if negb (Z.land scancode 128 =? 0) then None
  else
    let ascii := translate shift scancode in
    if negb (ascii =? 0) then Some ascii else None.

Lemma keyboard_handler_emits port k :
  keyboard_handler port k
  = match emits (shift_pressed k) port with
    | Some c =>
        mkKeyboard (<[buffer_end k := c]> (key_buffer k)) (buffer_start k)
                   (Z.rem (buffer_end k + 1) 256)
                   (next_shift (shift_pressed k) port)
    | None =>
        mkKeyboard (key_buffer k) (buffer_start k) (buffer_end k)
                   (next_shift (shift_pressed k) port)
    end.
Proof.
  unfold keyboard_handler, emits, next_shift. cbv zeta.
  destruct ((wrap8 port =? 42) || (wrap8 port =? 54)); [reflexivity|].
  destruct ((wrap8 port =? 170) || (wrap8 port =? 182)); [reflexivity|].
  destruct (negb (Z.land (wrap8 port) 128 =? 0)); [destruct k; reflexivity|].
  destruct (negb (translate (shift_pressed k) (wrap8 port) =? 0));
    [reflexivity|destruct k; reflexivity].
Qed.

(** The reference: a shift flag and an unbounded queue of characters. *)
Record model := mkModel {
  m_shift : Z;
  m_queue : list Z
}.

Definition boot_model : model := mkModel 0 [].

Definition model_step (e : event) (m : model) : option Z * model :=
  match e with
  | Key port =>
      (None,
       mkModel (next_shift (m_shift m) port)
               (m_queue m ++ match emits (m_shift m) port with
                             | Some c => [c]
                             | None => []
                             end))
  | Read =>
      match m_queue m with
      | c :: q => (Some c, mkModel (m_shift m) q)
      | [] => (None, m)
      end
  end.

Fixpoint model_play (es : list event) (m : model) : list (option Z) * model :=
  match es with
  | [] => ([], m)
  | Key port :: rest => model_play rest (snd (model_step (Key port) m))
  | Read :: rest =>
      let (r, m') := model_step Read m in
      let (out, m'') := model_play rest m' in (r :: out, m'')
  end.

(** At no point of the run are more than 255 characters unread. *)
Fixpoint below_capacity (es : list event) (m : model) : Prop :=
  match es with
  | [] => True
  | e :: rest =>
      let m' := snd (model_step e m) in
      (length (m_queue m') <= 255)%nat /\ below_capacity rest m'
  end.

(** The unread characters, oldest first: the slots from [buffer_start] up
    to [buffer_end], around the end of the array. *)
Definition unread (k : keyboard) : list Z :=
  map (fun i : nat => key_buffer k !!! ((buffer_start k + Z.of_nat i) mod 256))
      (seq 0 (Z.to_nat ((buffer_end k - buffer_start k) mod 256))).

Definition represents (k : keyboard) (m : model) : Prop :=
  shift_pressed k = m_shift m
  /\ 0 <= buffer_start k < 256
  /\ 0 <= buffer_end k < 256
  /\ unread k = m_queue m.

Ltac lia_mod := Z.to_euclidean_division_equations; lia.

Lemma unread_length k :
  length (unread k) = Z.to_nat ((buffer_end k - buffer_start k) mod 256).
Proof. unfold unread. rewrite length_map, length_seq. reflexivity. Qed.

Lemma represents_key port k m :
  represents k m ->
  (length (m_queue (snd (model_step (Key port) m))) <= 255)%nat ->
  represents (keyboard_handler port k) (snd (model_step (Key port) m)).
Proof.
  intros (Hshift & Hs & He & Hq) Hcap.
  rewrite keyboard_handler_emits. cbn [model_step snd] in *.
  rewrite <- Hshift in *.
  destruct (emits (shift_pressed k) port) as [c|].
  - cbn [m_queue] in Hcap. rewrite length_app in Hcap. cbn [length] in Hcap.
    rewrite <- Hq, unread_length in Hcap.
    unfold represents. cbn [shift_pressed buffer_start buffer_end m_shift m_queue].
    split_ands; try reflexivity; try lia; try lia_mod.
    rewrite <- Hq. unfold unread.
    cbn [key_buffer buffer_start buffer_end].
    replace (Z.to_nat ((Z.rem (buffer_end k + 1) 256 - buffer_start k) mod 256))
      with (S (Z.to_nat ((buffer_end k - buffer_start k) mod 256)))
      by lia_mod.
    rewrite seq_S, map_app. cbn [map Nat.add]. f_equal.
    + apply map_ext_in. intros i Hi. apply in_seq in Hi.
      apply lookup_total_insert_ne. lia_mod.
    + replace ((buffer_start k
                + Z.of_nat (Z.to_nat ((buffer_end k - buffer_start k) mod 256)))
               mod 256) with (buffer_end k) by lia_mod.
      rewrite lookup_total_insert_eq. reflexivity.
  - unfold represents. cbn [shift_pressed buffer_start buffer_end m_shift m_queue].
    rewrite app_nil_r. split_ands; try reflexivity; try lia. exact Hq.
Qed.

Lemma represents_read k m :
  represents k m ->
  match keyboard_getchar k with
  | Some (c, k') =>
      exists q, m_queue m = c :: q /\ represents k' (mkModel (m_shift m) q)
  | None => m_queue m = []
  end.
Proof.
  intros (Hshift & Hs & He & Hq). unfold keyboard_getchar.
  destruct (Z.eqb_spec (buffer_start k) (buffer_end k)) as [E|E].
  - rewrite <- Hq. unfold unread. rewrite E, Z.sub_diag. reflexivity.
  - exists (unread (mkKeyboard (key_buffer k) (Z.rem (buffer_start k + 1) 256)
                      (buffer_end k) (shift_pressed k))).
    split.
    + rewrite <- Hq. unfold unread at 1.
      replace (Z.to_nat ((buffer_end k - buffer_start k) mod 256))
        with (S (Z.to_nat ((buffer_end k - Z.rem (buffer_start k + 1) 256)
                           mod 256))) by lia_mod.
      cbn [seq map]. f_equal.
      * f_equal. lia_mod.
      * unfold unread. cbn [key_buffer buffer_start buffer_end].
        rewrite <- seq_shift, map_map. apply map_ext.
        intros i. f_equal. lia_mod.
    + unfold represents.
      cbn [shift_pressed buffer_start buffer_end m_shift m_queue].
      split_ands; try assumption; try reflexivity; try lia_mod.
Qed.

Lemma play_refines es :
  forall k m,
  represents k m -> below_capacity es m ->
  fst (play es k) = fst (model_play es m)
  /\ represents (snd (play es k)) (snd (model_play es m)).
Proof.
  induction es as [|e es IH]; intros k m Hrep Hcap;
    [split; [reflexivity|exact Hrep]|].
  destruct e as [port|].
  - destruct Hcap as [Hlen Hcap]. cbn [play model_play].
    apply IH; [apply represents_key; assumption|exact Hcap].
  - destruct Hcap as [_ Hcap]. cbn [play model_play model_step] in *.
    pose proof (represents_read k m Hrep) as Hread.
    destruct (keyboard_getchar k) as [[c k']|].
    + destruct Hread as (q & Hq & Hrep'). rewrite Hq in *.
      cbn [snd] in Hcap. specialize (IH k' _ Hrep' Hcap).
      destruct (play es k'), (model_play es (mkModel (m_shift m) q)).
      cbn [fst snd] in *. destruct IH as [-> IH]. split; [reflexivity|exact IH].
    + rewrite Hread in *. cbn [snd] in Hcap.
      specialize (IH k m Hrep Hcap).
      destruct (play es k), (model_play es m).
      cbn [fst snd] in *. destruct IH as [-> IH]. split; [reflexivity|exact IH].
Qed.

Lemma boot_represents : represents boot_keyboard boot_model.
Proof. unfold represents. cbn. split_ands; try lia; reflexivity. Qed.

(** With 255 characters unread, one more makes the buffer read as empty. *)
Lemma full_buffer_reads_empty port c k m :
  represents k m -> length (m_queue m) = 255%nat ->
  emits (shift_pressed k) port = Some c ->
  keyboard_getchar (keyboard_handler port k) = None.
Proof.
  intros (_ & Hs & He & Hq) Hlen Hemit.
  rewrite <- Hq, unread_length in Hlen.
  rewrite keyboard_handler_emits, Hemit. unfold keyboard_getchar.
  cbn [buffer_start buffer_end].
  replace (buffer_start k =? Z.rem (buffer_end k + 1) 256) with true;
    [reflexivity|].
  symmetry. apply Z.eqb_eq. lia_mod.
Qed.

(** The overflow behaviour as the specification words it: of the
    characters produced with no read in between, the ones still readable
    are the newest ones; at least 255 of them once that many were
    produced. *)
Definition keeps_newest (ports : list Z) : Prop :=
  let produced := m_queue (snd (model_play (map Key ports) boot_model)) in
  let readable := drain 256 (snd (play (map Key ports) boot_keyboard)) in
  exists lost,
    produced = lost ++ readable
    /\ ((255 <= length produced)%nat -> (255 <= length readable)%nat).

(** C7, as stated, fails: after 256 presses of 'a' with no read in
    between, nothing at all can be read, the newest characters included. *)
Lemma overrun_loses_newest_too : ~ keeps_newest (replicate 256 30).
Proof.
  intros (lost & _ & Hkept).
  assert (Hprod : length (m_queue (snd (model_play (map Key (replicate 256 30))
                                          boot_model))) = 256%nat)
    by (vm_compute; reflexivity).
  assert (Hread : drain 256 (snd (play (map Key (replicate 256 30))
                                     boot_keyboard)) = [])
    by (vm_compute; reflexivity).
  rewrite Hprod, Hread in Hkept. cbn [length] in Hkept. lia.
Qed.

(** C7, amended. The ring buffer is a strict FIFO between the IRQ1 handler
    and [keyboard_getchar] as long as no more than 255 characters are
    unread at any time: every read returns what a queue would return, in
    the order of enqueueing.  There is no overflow check: when 255
    characters are unread, the next one makes the two indices equal and
    the buffer reads as empty. *)
Theorem ring_buffer_fifo (es : list event) (k : keyboard) (m : model) :
  represents k m -> below_capacity es m ->
  fst (play es k) = fst (model_play es m)
  /\ forall port c,
       length (m_queue (snd (model_play es m))) = 255%nat ->
       emits (m_shift (snd (model_play es m))) port = Some c ->
       keyboard_getchar (keyboard_handler port (snd (play es k))) = None.
Proof.
  intros Hrep Hcap.
  destruct (play_refines es k m Hrep Hcap) as [Hout Hrep'].
  split; [exact Hout|].
  intros port c Hlen Hemit.
  apply (full_buffer_reads_empty port c _ _ Hrep' Hlen).
  destruct Hrep' as [-> _]. exact Hemit.
Qed.

Lemma below_capacity_keys (n : nat) :
  forall m,
  (length (m_queue m) + n <= 255)%nat ->
  below_capacity (replicate n (Key 30)) m.
Proof.
  induction n as [|n IH]; intros m Hlen; [exact I|].
  cbn [replicate below_capacity]. cbv zeta.
  assert (Hstep : (length (m_queue (snd (model_step (Key 30) m)))
                   <= S (length (m_queue m)))%nat).
  { cbn [model_step snd m_queue]. rewrite length_app.
    destruct (emits (m_shift m) 30); cbn [length]; lia. }
  split; [lia|apply IH; lia].
Qed.

Lemma ring_buffer_fifo_witness :
  let es := replicate 255 (Key 30) in
  represents boot_keyboard boot_model
  /\ below_capacity es boot_model
  /\ fst (play es boot_keyboard) = fst (model_play es boot_model)
  /\ keyboard_getchar (keyboard_handler 30 (snd (play es boot_keyboard)))
     = None.
Proof.
  intros es.
  assert (Hcap : below_capacity es boot_model)
    by (apply below_capacity_keys; cbn; lia).
  destruct (ring_buffer_fifo es boot_keyboard boot_model boot_represents Hcap)
    as [Hout Hfull].
  split_ands; [exact boot_represents|exact Hcap|exact Hout|].
  apply (Hfull 30 (ch "a")); vm_compute; reflexivity.
Defined.

(** *** What one interrupt can do *)






(** Whatever the interrupts and reads, both indices stay inside the
    256-entry array. *)
Theorem indices_stay_in_the_array (es : list event) :
  let k := snd (play es boot_keyboard) in
  0 <= buffer_start k < 256 /\ 0 <= buffer_end k < 256.
Proof.
  cbv zeta.
  assert (H0 : 0 <= buffer_start boot_keyboard < 256
               /\ 0 <= buffer_end boot_keyboard < 256) by (cbn; lia).
  generalize dependent boot_keyboard.
  induction es as [|e es IH]; intros k Hk; [exact Hk|].
  destruct e as [port|]; cbn [play].
  - apply IH. rewrite keyboard_handler_emits.
    destruct (emits (shift_pressed k) port);
      cbn [buffer_start buffer_end]; [|exact Hk].
    split; [tauto|]. destruct Hk as [_ He].
    pose proof (Z.rem_bound_pos (buffer_end k + 1) 256 ltac:(lia) ltac:(lia)).
    lia.
  - unfold keyboard_getchar.
    destruct (buffer_start k =? buffer_end k).
    + specialize (IH k Hk). destruct (play es k). exact IH.
    + set (k' := mkKeyboard _ _ _ _).
      assert (Hk' : 0 <= buffer_start k' < 256 /\ 0 <= buffer_end k' < 256).
      { unfold k'. cbn [buffer_start buffer_end]. split; [|tauto].
        destruct Hk as [Hs _].
        pose proof (Z.rem_bound_pos (buffer_start k + 1) 256
                      ltac:(lia) ltac:(lia)). lia. }
      specialize (IH k' Hk'). destruct (play es k'). exact IH.
Qed.

(** With the shift flag set every letter key gives the capital of the
    letter it gives without, a key gives a character with shift exactly
    when it gives one without, and backspace, tab, enter and space are the
    same in both tables. *)
Theorem shift_capitalises_letters (shift scancode : Z) :
  shift <> 0 ->
  let plain_key := translate 0 scancode in
  let shifted := translate shift scancode in
  (97 <= plain_key <= 122 -> shifted = plain_key - 32)
  /\ (plain_key = 0 <-> shifted = 0)
  /\ (plain_key = 8 \/ plain_key = 9 \/ plain_key = 10 \/ plain_key = 32 ->
      shifted = plain_key).
Proof.
  intros Hshift. cbv zeta. unfold translate.
  apply Z.eqb_neq in Hshift. rewrite Hshift. change (0 =? 0) with true.
  destruct (Z.ltb_spec scancode (Z.of_nat (length scancode_to_ascii)))
    as [Hlt|Hge]; [|split_ands; try tauto; intros; lia].
  destruct (Z.lt_ge_cases scancode 0) as [Hneg|Hpos].
  - replace (Z.to_nat scancode) with 0%nat by lia.
    vm_compute; split_ands; try tauto; intros H; try discriminate;
      try (destruct H as [H|[H|[H|H]]]; discriminate);
      try (destruct H as [H1 H2]; exfalso;
           first [apply H1; reflexivity | apply H2; reflexivity]).
  - change (Z.of_nat (length scancode_to_ascii)) with 58 in Hlt.
    assert (Hm : (Z.to_nat scancode < 58)%nat) by lia.
    generalize dependent (Z.to_nat scancode). clear. intros m Hm.
    do 58 (destruct m as [|m];
           [vm_compute; split_ands; try tauto; intros H;
            try discriminate;
            try (destruct H; discriminate);
            try (destruct H as [H|[H|[H|H]]]; try discriminate; reflexivity);
            try (destruct H as [H1 H2]; exfalso;
                 first [apply H1; reflexivity | apply H2; reflexivity])|]).
    lia.
Qed.

Lemma shift_capitalises_letters_witness :
  translate 1 30 = translate 0 30 - 32.
Proof.
  apply (shift_capitalises_letters 1 30); [discriminate|].
  vm_compute. split; discriminate.
Defined.

End KeyboardFacts.

(** ** The heap *)

Section MemoryFacts.

Import Memory.

(** *** Loads and stores *)

Lemma load_store a v h a' :
  load (store a v h) a' = if decide (a = a') then v else load h a'.
Proof. unfold load, store; cbn [ram]. apply lookup_total_insert. Qed.

Lemma load_set_total v h a : load (set_total v h) a = load h a.
Proof. reflexivity. Qed.

Lemma free_list_store a v h : free_list (store a v h) = free_list h.
Proof. reflexivity. Qed.

Lemma free_list_set_total v h : free_list (set_total v h) = free_list h.
Proof. reflexivity. Qed.

Lemma total_store a v h : total_allocated (store a v h) = total_allocated h.
Proof. reflexivity. Qed.

Lemma total_set_total v h : total_allocated (set_total v h) = v.
Proof. reflexivity. Qed.

Lemma wrap32_small x : 0 <= x < 4294967296 -> wrap32 x = x.
Proof. intros H. apply Z.mod_small, H. Qed.

Lemma ptr_add_small p n : 0 <= p + n < 4294967296 -> ptr_add p n = p + n.
Proof. apply wrap32_small. Qed.

Lemma load_store_ne a v h a' : a <> a' -> load (store a v h) a' = load h a'.
Proof. intros H. rewrite load_store. apply decide_False, H. Qed.

Lemma load_store_eq a v h a' : a = a' -> load (store a v h) a' = v.
Proof. intros H. rewrite load_store. apply decide_True, H. Qed.

(** Normalises loads through stores, deciding the address comparisons by
    linear arithmetic. *)
Ltac loads :=
  unfold block_size, block_is_free, block_next;
  repeat first
    [ rewrite load_set_total
    | rewrite free_list_store
    | rewrite free_list_set_total
    | rewrite total_store
    | rewrite total_set_total
    | progress cbn [free_list total_allocated]
    | match goal with
      | |- context [load (store ?a ?v ?h) ?a'] =>
          first [ rewrite (load_store_ne a v h a') by lia
                | rewrite (load_store_eq a v h a') by lia ]
      end ].

(** *** Rounding *)

Lemma align4_spec x :
  0 <= x <= 4294967292 -> align4 x = 4 * ((x + 3) / 4).
Proof.
  intros Hx. unfold align4. rewrite wrap32_small by lia.
  rewrite <- Z.ldiff_land. change 3 with (Z.ones 2) at 2.
  rewrite Z.ldiff_ones_r by lia.
  rewrite Z.shiftl_mul_pow2, Z.shiftr_div_pow2 by lia.
  change (2 ^ 2) with 4. lia.
Qed.

(** [align4 x] is [x] rounded up to a multiple of 4. *)
Lemma align4_rounds_up x :
  0 <= x <= 4294967292 ->
  align4 x mod 4 = 0 /\ x <= align4 x < x + 4.
Proof.
  intros Hx. rewrite align4_spec by exact Hx.
  Z.to_euclidean_division_equations. lia.
Qed.

(** *** One step of the allocation scan *)

Lemma scan_null fuel size h :
  kmalloc_scan (S fuel) size NULL h = Some (NULL, h).
Proof. reflexivity. Qed.

(** A block that is in use, or too small, is passed over. *)
Lemma scan_skip fuel size p h :
  p <> NULL ->
  block_is_free h p = 0 \/ block_size h p < size ->
  kmalloc_scan (S fuel) size p h
  = kmalloc_scan fuel size (block_next h p) h.
Proof.
  intros Hp Hskip. cbn [kmalloc_scan].
  apply Z.eqb_neq in Hp. rewrite Hp.
  destruct Hskip as [Hused|Hsmall].
  - rewrite Hused. reflexivity.
  - apply Z.leb_gt in Hsmall. rewrite Hsmall, andb_false_r. reflexivity.
Qed.

(** The heap after [size] bytes are carved off the front of the free
    block at [p], whose size was [old] and whose successor was [next];
    [total] is the new allocated-byte count. *)
Definition carve (p size old next total : Z) (h : heap) : heap :=
  let q := p + HEADER + size in
  set_total total
    (store p size
       (store (p + 8) q
          (store (q + 8) next
             (store (q + 4) 1
                (store q (old - size - HEADER)
                   (store (p + 4) 0 h)))))).

(** A free block with room for a remainder is split. *)
Lemma scan_split fuel size p h old next total :
  p <> NULL ->
  block_is_free h p <> 0 ->
  block_size h p = old -> block_next h p = next ->
  total_allocated h = total ->
  0 <= size -> size + HEADER + 16 < old ->
  old < 4294967296 ->
  0 <= p -> p + HEADER + size < 4294967296 ->
  kmalloc_scan (S fuel) size p h
  = Some (p + HEADER, carve p size old next (wrap32 (total + size)) h).
Proof.
  intros Hp Hfree <- <- <- Hsize Hroom Hmax Hp0 Hfit. unfold HEADER in *.
  cbn [kmalloc_scan]. cbv zeta.
  apply Z.eqb_neq in Hp. rewrite Hp.
  apply Z.eqb_neq in Hfree. rewrite Hfree.
  replace (size <=? block_size h p) with true
    by (symmetry; apply Z.leb_le; lia).
  cbn [negb andb].
  assert (E1 : block_size (store (p + 4) 0 h) p = block_size h p)
    by (loads; reflexivity).
  rewrite E1, (wrap32_small (size + HEADER + 16)) by (unfold HEADER; lia).
  replace (size + HEADER + 16 <? block_size h p) with true
    by (symmetry; apply Z.ltb_lt; unfold HEADER; lia).
  unfold HEADER.
  rewrite !ptr_add_small by lia.
  rewrite (wrap32_small (block_size h p - size - 12)) by lia.
  replace (p + (12 + size)) with (p + 12 + size) by lia.
  unfold carve, HEADER. loads. reflexivity.
Qed.

(** A free block that fits without room for a remainder is taken whole. *)
Lemma scan_whole fuel size p h :
  p <> NULL ->
  block_is_free h p <> 0 ->
  size <= block_size h p ->
  block_size h p <= wrap32 (size + HEADER + 16) ->
  kmalloc_scan (S fuel) size p h
  = Some (ptr_add p HEADER,
          set_total (wrap32 (total_allocated h + block_size h p))
                    (store (p + 4) 0 h)).
Proof.
  intros Hp Hfree Hfits Hroom.
  cbn [kmalloc_scan]. cbv zeta.
  apply Z.eqb_neq in Hp. rewrite Hp.
  apply Z.eqb_neq in Hfree. rewrite Hfree.
  replace (size <=? block_size h p) with true
    by (symmetry; apply Z.leb_le; lia).
  cbn [negb andb].
  assert (E1 : block_size (store (p + 4) 0 h) p = block_size h p)
    by (loads; reflexivity).
  rewrite E1.
  replace (wrap32 (size + HEADER + 16) <? block_size h p) with false
    by (symmetry; apply Z.ltb_ge; lia).
  rewrite E1, total_store. reflexivity.
Qed.

(** *** One step of the coalescing pass *)

Lemma coalesce_stop fuel c h :
  c = NULL \/ block_next h c = NULL -> coalesce (S fuel) c h = Some h.
Proof.
  intros H. cbn [coalesce].
  destruct H as [H|H]; apply Z.eqb_eq in H; rewrite H;
    [|rewrite orb_true_r]; reflexivity.
Qed.

Lemma coalesce_skip fuel c h :
  c <> NULL -> block_next h c <> NULL ->
  block_is_free h c = 0 \/ block_is_free h (block_next h c) = 0 ->
  coalesce (S fuel) c h = coalesce fuel (block_next h c) h.
Proof.
  intros Hc Hn Hused. cbn [coalesce].
  apply Z.eqb_neq in Hc, Hn. rewrite Hc, Hn. cbn [orb].
  destruct Hused as [H|H]; rewrite H; [|rewrite andb_false_r]; reflexivity.
Qed.

(** The heap after the block at [c] has absorbed its successor: [size]
    is its new size and [next] its new successor. *)
Definition absorb (c size next : Z) (h : heap) : heap :=
  store (c + 8) next (store c size h).

Lemma coalesce_merge fuel c h n s1 s2 nn :
  c <> NULL -> block_next h c = n -> n <> NULL ->
  block_is_free h c <> 0 -> block_is_free h n <> 0 ->
  block_size h c = s1 -> block_size h n = s2 -> block_next h n = nn ->
  n + 8 <> c ->
  0 <= s1 -> 0 <= s2 -> s1 + HEADER + s2 < 4294967296 ->
  coalesce (S fuel) c h = coalesce fuel c (absorb c (s1 + HEADER + s2) nn h).
Proof.
  intros Hc <- Hn Hf1 Hf2 <- <- <- Hapart Hs1 Hs2 Hsum. unfold HEADER in *.
  cbn [coalesce]. cbv zeta.
  apply Z.eqb_neq in Hc, Hn, Hf1, Hf2. rewrite Hc, Hn, Hf1, Hf2.
  cbn [orb negb andb]. unfold HEADER.
  rewrite (wrap32_small (12 + _)) by lia.
  rewrite wrap32_small by lia.
  f_equal. unfold absorb.
  replace (block_size h c + (12 + block_size h (block_next h c)))
    with (block_size h c + 12 + block_size h (block_next h c)) by lia.
  f_equal.
  assert (E : block_next (store c (block_size h c + 12
                                   + block_size h (block_next h c)) h) c
              = block_next h c) by (loads; reflexivity).
  rewrite E. unfold block_next at 1. rewrite load_store.
  rewrite decide_False by lia.
  reflexivity.
Qed.

(** [kfree] of the pointer to the block at [b], up to the coalescing
    pass. *)
Lemma kfree_marks fuel b h size total :
  0 <= b -> b + HEADER < 4294967296 ->
  block_size h b = size -> total_allocated h = total ->
  kfree fuel (b + HEADER) h
  = coalesce fuel (free_list h)
      (set_total (wrap32 (total - size)) (store (b + 4) 1 h)).
Proof.
  intros Hb Hrange <- <-. unfold kfree. cbv zeta.
  replace (b + HEADER =? NULL) with false
    by (symmetry; apply Z.eqb_neq; unfold HEADER, NULL; lia).
  unfold HEADER in *. rewrite ptr_add_small by lia.
  replace (b + 12 + - (12)) with b by lia.
  rewrite free_list_set_total, free_list_store, total_store.
  do 3 f_equal. loads. reflexivity.
Qed.

(** *** A first allocation on the fresh heap *)

Lemma memory_init_block cfg hb :
  let h := memory_init cfg hb in
  let start := KERNEL_HEAP_START cfg in
  free_list h = start
  /\ total_allocated h = total_allocated hb
  /\ block_size h start = wrap32 (KERNEL_HEAP_SIZE cfg - HEADER)
  /\ block_is_free h start = 1
  /\ block_next h start = NULL.
Proof.
  cbv zeta. unfold memory_init. cbv zeta.
  rewrite !free_list_store, !total_store. cbn [free_list total_allocated].
  split_ands; try reflexivity; loads; reflexivity.
Qed.

(** The first allocation, as the specification states it: a block of the
    rounded size, and after it a free block of size S - header - rounded
    size. *)
Definition split_as_specified (cfg : heap_config) (hb : heap) (R : Z)
  : Prop :=
  exists p h,
    kmalloc 1 R (memory_init cfg hb) = Some (p, h)
    /\ p <> NULL
    /\ block_size h (p - HEADER) = align4 R
    /\ block_is_free h (block_next h (p - HEADER)) = 1
    /\ block_size h (block_next h (p - HEADER))
       = KERNEL_HEAP_SIZE cfg - HEADER - align4 R.

(** C3, as stated, fails: on the kernel's 1 MiB heap a request of 100
    bytes leaves a free block of 1048452 bytes, one header less than
    S - header - 100. *)
Lemma remainder_is_one_header_smaller :
  100 + HEADER + 16 < KERNEL_HEAP_SIZE kernel_h
  /\ ~ split_as_specified kernel_h (boot_heap ∅) 100.
Proof.
  split; [vm_compute; reflexivity|].
  intros (p & h & Hm & _ & _ & _ & Hrest).
  vm_compute in Hm. injection Hm as <- <-.
  vm_compute in Hrest. discriminate Hrest.
Qed.

(** C3, amended. On a freshly initialised heap of size S, a request of
    R > 0 bytes with R(rounded) + 2 headers + 16 < S returns the address
    just after the first header; that block has usable size R rounded up
    to a multiple of 4 and is in use, and it is followed by a second, free
    block of size S - 2 headers - R(rounded) that ends the list.  The
    allocated-byte counter grows by R(rounded). *)
Theorem kmalloc_fresh_heap_splits (cfg : heap_config) (hb : heap) (R : Z)
  (fuel : nat) :
  let start := KERNEL_HEAP_START cfg in
  let S := KERNEL_HEAP_SIZE cfg in
  0 < start -> start + S <= 4294967296 ->
  0 < R <= 4294967292 ->
  align4 R + 2 * HEADER + 16 < S ->
  (align4 R mod 4 = 0 /\ R <= align4 R < R + 4)
  /\ exists h,
       kmalloc (Datatypes.S fuel) R (memory_init cfg hb)
       = Some (start + HEADER, h)
       /\ block_size h start = align4 R
       /\ block_is_free h start = 0
       /\ block_next h start = start + HEADER + align4 R
       /\ block_size h (start + HEADER + align4 R) = S - 2 * HEADER - align4 R
       /\ block_is_free h (start + HEADER + align4 R) = 1
       /\ block_next h (start + HEADER + align4 R) = NULL
       /\ total_allocated h = wrap32 (total_allocated hb + align4 R).
Proof.
  cbv zeta. intros Hstart Hend HR Hroom.
  pose proof (align4_rounds_up R ltac:(lia)) as Hround.
  split; [exact Hround|].
  destruct (memory_init_block cfg hb) as (Hfl & Htot & Hsz & Hfr & Hnx).
  unfold HEADER in *.
  rewrite wrap32_small in Hsz by lia.
  exists (carve (KERNEL_HEAP_START cfg) (align4 R)
            (KERNEL_HEAP_SIZE cfg - 12) NULL
            (wrap32 (total_allocated hb + align4 R)) (memory_init cfg hb)).
  split.
  - unfold kmalloc.
    replace (wrap32 R =? 0) with false
      by (symmetry; apply Z.eqb_neq; rewrite wrap32_small; lia).
    rewrite Hfl.
    apply scan_split; unfold NULL, HEADER; rewrite ?Hfr; try assumption; lia.
  - unfold carve, HEADER.
    split_ands; loads; try reflexivity; lia.
Qed.

Lemma kmalloc_fresh_heap_splits_witness :
  exists h,
    kmalloc 1 100 (memory_init kernel_h (boot_heap ∅)) = Some (1048588, h)
    /\ block_size h 1048576 = 100
    /\ block_size h 1048688 = 1048452
    /\ total_allocated h = 100.
Proof.
  assert (H1 : 0 < KERNEL_HEAP_START kernel_h) by (vm_compute; reflexivity).
  assert (H2 : KERNEL_HEAP_START kernel_h + KERNEL_HEAP_SIZE kernel_h
               <= 4294967296) by (vm_compute; discriminate).
  assert (H3 : 0 < 100 <= 4294967292) by lia.
  assert (H4 : align4 100 + 2 * HEADER + 16 < KERNEL_HEAP_SIZE kernel_h)
    by (vm_compute; reflexivity).
  destruct (kmalloc_fresh_heap_splits kernel_h (boot_heap ∅) 100 0 H1 H2 H3 H4)
    as (_ & h & Hm & Hs & _ & _ & Hrest & _ & _ & Htot).
  exists h. split; [exact Hm|]. split; [exact Hs|].
  split; [exact Hrest|exact Htot].
Defined.

(** A request of size 0 is refused before the list is looked at. *)
Lemma kmalloc_zero_is_null (fuel : nat) (h : heap) :
  kmalloc fuel 0 h = Some (NULL, h).
Proof. reflexivity. Qed.

(** Between the two bounds there is no second block at all: a request of
    1048540 bytes satisfies R + header + 16 < S on the kernel heap, yet
    the first block is handed out whole, 1048564 bytes, and ends the
    list. *)
Lemma tight_request_takes_whole_block :
  1048540 + HEADER + 16 < KERNEL_HEAP_SIZE kernel_h
  /\ match kmalloc 1 1048540 (memory_init kernel_h (boot_heap ∅)) with
     | Some (p, h) =>
         p = 1048588
         /\ block_size h 1048576 = 1048564
         /\ block_is_free h 1048576 = 0
         /\ block_next h 1048576 = NULL
         /\ total_allocated h = 1048564
     | None => False
     end.
Proof. vm_compute. split_ands; reflexivity. Qed.

(** *** Three blocks, two of them freed *)

(** Three allocations of [a] bytes, then [kfree] of the first and the
    second block, in the order [first_then_second] says. *)
Definition three_allocs_two_frees (fuel : nat) (first_then_second : bool)
  (a : Z) (h0 : heap) : option heap :=
  match kmalloc fuel a h0 with
  | Some (p1, h1) =>
      match kmalloc fuel a h1 with
      | Some (p2, h2) =>
          match kmalloc fuel a h2 with
          | Some (p3, h3) =>
              if first_then_second then
                match kfree fuel p1 h3 with
                | Some h4 => kfree fuel p2 h4
                | None => None
                end
              else
                match kfree fuel p2 h3 with
                | Some h4 => kfree fuel p1 h4
                | None => None
                end
          | None => None
          end
      | None => None
      end
  | None => None
  end.

(** The fresh kernel heap, as the stores [memory_init] makes. *)
Definition fresh (hb : heap) : heap :=
  store 1048584 NULL
    (store 1048580 1
       (store 1048576 1048564
          (mkHeap (ram hb) 2097152 1048576 (total_allocated hb)))).

Lemma memory_init_kernel hb : memory_init kernel_h hb = fresh hb.
Proof. reflexivity. Qed.

(** The heap after one, two and three allocations of [A] bytes: blocks at
    1048576, 1048576+(A+12), 1048576+2(A+12), then the free remainder.
    [T] is the allocated-byte count before. *)
Definition one_block (A T : Z) (hb : heap) : heap :=
  carve 1048576 A 1048564 NULL (wrap32 (T + A)) (fresh hb).

Definition two_blocks (A T : Z) (hb : heap) : heap :=
  carve (1048576 + (A + 12)) A (1048564 - (A + 12)) NULL
        (wrap32 (wrap32 (T + A) + A)) (one_block A T hb).

Definition three_blocks (A T : Z) (hb : heap) : heap :=
  carve (1048576 + 2 * (A + 12)) A (1048564 - 2 * (A + 12)) NULL
        (wrap32 (wrap32 (wrap32 (T + A) + A) + A)) (two_blocks A T hb).

(** The heap after the blocks at [first] and then at [second] (the first
    two blocks, in either order) were freed: both are marked free and the
    first block has absorbed the second. *)
Definition two_freed (first second A T : Z) (hb : heap) : heap :=
  let t3 := wrap32 (wrap32 (wrap32 (T + A) + A) + A) in
  absorb 1048576 (A + 12 + A) (1048576 + 2 * (A + 12))
    (set_total (wrap32 (wrap32 (t3 - A) - A))
       (store (second + 4) 1
          (set_total (wrap32 (t3 - A))
             (store (first + 4) 1 (three_blocks A T hb))))).

(** Settles a side condition about one of these heaps. *)
Ltac heap_solve :=
  unfold two_freed, three_blocks, two_blocks, one_block, fresh, carve, absorb,
         NULL, HEADER;
  cbv zeta; loads; first [ lia | reflexivity ].

Ltac heap_side := first [ heap_solve | left; heap_solve | right; heap_solve ].

Lemma three_blocks_allocated fuel a hb :
  0 < a <= 4294967292 -> 3 * align4 a + 64 < 1048576 ->
  let A := align4 a in
  let T := total_allocated hb in
  kmalloc (S (S (S fuel))) a (memory_init kernel_h hb)
  = Some (1048576 + 12, one_block A T hb)
  /\ kmalloc (S (S (S fuel))) a (one_block A T hb)
     = Some (1048576 + (A + 12) + 12, two_blocks A T hb)
  /\ kmalloc (S (S (S fuel))) a (two_blocks A T hb)
     = Some (1048576 + 2 * (A + 12) + 12, three_blocks A T hb).
Proof.
  intros Ha Hroom. cbv zeta.
  destruct (align4_rounds_up a ltac:(lia)) as [_ HA].
  assert (Hnz : (wrap32 a =? 0) = false)
    by (apply Z.eqb_neq; rewrite wrap32_small; lia).
  rewrite memory_init_kernel. unfold kmalloc. rewrite !Hnz.
  set (A := align4 a) in *. clearbody A.
  set (T := total_allocated hb).
  split_ands.
  - replace (free_list (fresh hb)) with 1048576 by heap_solve.
    rewrite (scan_split _ A 1048576 (fresh hb) 1048564 NULL T)
      by heap_side.
    reflexivity.
  - replace (free_list (one_block A T hb)) with 1048576 by heap_solve.
    rewrite scan_skip by heap_side.
    replace (block_next (one_block A T hb) 1048576)
      with (1048576 + (A + 12)) by heap_solve.
    rewrite (scan_split _ A (1048576 + (A + 12)) (one_block A T hb)
               (1048564 - (A + 12)) NULL (wrap32 (T + A)))
      by heap_side.
    reflexivity.
  - replace (free_list (two_blocks A T hb)) with 1048576 by heap_solve.
    rewrite scan_skip by heap_side.
    replace (block_next (two_blocks A T hb) 1048576)
      with (1048576 + (A + 12)) by heap_solve.
    rewrite scan_skip by heap_side.
    replace (block_next (two_blocks A T hb) (1048576 + (A + 12)))
      with (1048576 + 2 * (A + 12)) by heap_solve.
    rewrite (scan_split _ A (1048576 + 2 * (A + 12)) (two_blocks A T hb)
               (1048564 - 2 * (A + 12)) NULL (wrap32 (wrap32 (T + A) + A)))
      by heap_side.
    reflexivity.
Qed.

(** Follows one step of the coalescing pass that does not merge. *)
Ltac coalesce_on next :=
  rewrite coalesce_skip by heap_side;
  match goal with
  | |- context [coalesce _ (block_next ?h ?c) _] =>
      replace (block_next h c) with next by heap_solve
  end.

Lemma first_two_freed fuel (first_then_second : bool) a hb :
  0 < a <= 4294967292 -> 3 * align4 a + 64 < 1048576 ->
  let A := align4 a in
  let T := total_allocated hb in
  let b1 := 1048576 in
  let b2 := 1048576 + (A + 12) in
  let first := if first_then_second then b1 else b2 in
  let second := if first_then_second then b2 else b1 in
  three_allocs_two_frees (S (S (S (S fuel)))) first_then_second a
    (memory_init kernel_h hb)
  = Some (two_freed first second A T hb).
Proof.
  intros Ha Hroom. cbv zeta.
  destruct (three_blocks_allocated (S fuel) a hb Ha Hroom) as (E1 & E2 & E3).
  unfold three_allocs_two_frees. rewrite E1, E2, E3. clear E1 E2 E3.
  destruct (align4_rounds_up a ltac:(lia)) as [_ HA].
  set (A := align4 a) in *. clearbody A.
  set (T := total_allocated hb).
  set (t3 := wrap32 (wrap32 (wrap32 (T + A) + A) + A)).
  destruct first_then_second.
  - (* the first block, then the second *)
    change (1048576 + 12) with (1048576 + HEADER).
    rewrite (kfree_marks _ 1048576 (three_blocks A T hb) A t3)
      by heap_side.
    replace (free_list (three_blocks A T hb)) with 1048576 by heap_solve.
    set (h4 := set_total (wrap32 (t3 - A))
                 (store (1048576 + 4) 1 (three_blocks A T hb))).
    assert (Hpass : coalesce (S (S (S (S fuel)))) 1048576 h4 = Some h4).
    { subst h4.
      coalesce_on (1048576 + (A + 12)).
      coalesce_on (1048576 + 2 * (A + 12)).
      coalesce_on (1048576 + 2 * (A + 12) + 12 + A).
      apply coalesce_stop. heap_side. }
    rewrite Hpass. clear Hpass.
    change (1048576 + (A + 12) + 12) with (1048576 + (A + 12) + HEADER).
    rewrite (kfree_marks _ (1048576 + (A + 12)) h4 A (wrap32 (t3 - A)))
      by (subst h4; heap_side).
    replace (free_list h4) with 1048576 by (subst h4; heap_solve).
    subst h4.
    rewrite (coalesce_merge _ 1048576 _ (1048576 + (A + 12)) A A
               (1048576 + 2 * (A + 12))) by heap_side.
    unfold HEADER.
    coalesce_on (1048576 + 2 * (A + 12)).
    coalesce_on (1048576 + 2 * (A + 12) + 12 + A).
    rewrite coalesce_stop by heap_side. reflexivity.
  - (* the second block, then the first *)
    change (1048576 + (A + 12) + 12) with (1048576 + (A + 12) + HEADER).
    rewrite (kfree_marks _ (1048576 + (A + 12)) (three_blocks A T hb) A t3)
      by heap_side.
    replace (free_list (three_blocks A T hb)) with 1048576 by heap_solve.
    set (h4 := set_total (wrap32 (t3 - A))
                 (store (1048576 + (A + 12) + 4) 1 (three_blocks A T hb))).
    assert (Hpass : coalesce (S (S (S (S fuel)))) 1048576 h4 = Some h4).
    { subst h4.
      coalesce_on (1048576 + (A + 12)).
      coalesce_on (1048576 + 2 * (A + 12)).
      coalesce_on (1048576 + 2 * (A + 12) + 12 + A).
      apply coalesce_stop. heap_side. }
    rewrite Hpass. clear Hpass.
    change (1048576 + 12) with (1048576 + HEADER).
    rewrite (kfree_marks _ 1048576 h4 A (wrap32 (t3 - A)))
      by (subst h4; heap_side).
    replace (free_list h4) with 1048576 by (subst h4; heap_solve).
    subst h4.
    rewrite (coalesce_merge _ 1048576 _ (1048576 + (A + 12)) A A
               (1048576 + 2 * (A + 12))) by heap_side.
    unfold HEADER.
    coalesce_on (1048576 + 2 * (A + 12)).
    coalesce_on (1048576 + 2 * (A + 12) + 12 + A).
    rewrite coalesce_stop by heap_side. reflexivity.
Qed.

(** What the merged heap looks like: one free block of 2A+12 bytes, the
    third block in use, the free remainder. *)
Lemma two_freed_layout first second A T hb :
  0 < A -> 3 * A + 64 < 1048576 ->
  (first = 1048576 /\ second = 1048576 + (A + 12)
   \/ first = 1048576 + (A + 12) /\ second = 1048576) ->
  let h := two_freed first second A T hb in
  let b3 := 1048576 + 2 * (A + 12) in
  let b4 := 1048576 + 3 * (A + 12) in
  free_list h = 1048576
  /\ (block_size h 1048576 = 2 * A + 12 /\ block_is_free h 1048576 = 1
      /\ block_next h 1048576 = b3)
  /\ (block_is_free h b3 = 0 /\ block_next h b3 = b4)
  /\ (block_size h b4 = 1048528 - 3 * A /\ block_is_free h b4 = 1
      /\ block_next h b4 = NULL).
Proof.
  intros HA Hroom [[-> ->]|[-> ->]]; cbv zeta; split_ands; heap_solve.
Qed.

(** A request the block at [p] can serve is served from it, split or
    whole. *)
Lemma scan_takes fuel size p h :
  p <> NULL -> block_is_free h p <> 0 ->
  0 <= size <= block_size h p ->
  block_size h p + HEADER + 16 < 4294967296 ->
  0 <= p -> p + HEADER + block_size h p < 4294967296 ->
  exists h', kmalloc_scan (S fuel) size p h = Some (p + HEADER, h').
Proof.
  intros Hp Hfree Hsize Hmax Hp0 Hfit.
  destruct (Z_lt_ge_dec (size + HEADER + 16) (block_size h p)) as [Hroom|Htight].
  - eexists. apply (scan_split fuel size p h _ _ _ Hp Hfree eq_refl eq_refl
                      eq_refl); unfold HEADER in *; lia.
  - eexists. rewrite scan_whole; try assumption; try lia.
    + rewrite ptr_add_small by (unfold HEADER in *; lia). reflexivity.
    + rewrite wrap32_small by (unfold HEADER in *; lia). lia.
Qed.

(** The coalescing scenario as the specification states it: a request
    that fits the two freed blocks together succeeds, and one larger than
    that region returns the null sentinel. *)
Definition null_beyond_merged (a y : Z) (first_then_second : bool) : Prop :=
  forall h,
    three_allocs_two_frees 16 first_then_second a
      (memory_init kernel_h (boot_heap ∅)) = Some h ->
    2 * align4 a + HEADER < y ->
    exists h', kmalloc 16 y h = Some (NULL, h').

(** C4, as stated, fails: with three blocks of 64 bytes the freed region
    is 140 bytes, and a request of 144 bytes is served, from the free
    remainder of the heap. *)
Lemma larger_request_served_from_remainder :
  ~ null_beyond_merged 64 144 true /\ ~ null_beyond_merged 64 144 false.
Proof.
  split; intros H.
  - destruct (three_allocs_two_frees 16 true 64
                (memory_init kernel_h (boot_heap ∅))) as [h|] eqn:E;
      [|vm_compute in E; discriminate E].
    destruct (H h E ltac:(vm_compute; reflexivity)) as [h' Hm].
    vm_compute in E. injection E as <-.
    vm_compute in Hm. discriminate Hm.
  - destruct (three_allocs_two_frees 16 false 64
                (memory_init kernel_h (boot_heap ∅))) as [h|] eqn:E;
      [|vm_compute in E; discriminate E].
    destruct (H h E ltac:(vm_compute; reflexivity)) as [h' Hm].
    vm_compute in E. injection E as <-.
    vm_compute in Hm. discriminate Hm.
Qed.

(** C4, amended. On the freshly initialised kernel heap, after three
    allocations of the same size (rounded: A) and [kfree] of the first
    and the second block, in either order, the two freed blocks form one
    free block of 2A+12 bytes at the start of the heap.  A request larger
    than A whose rounded size is at most 2A+12 is served from that merged
    block (the pointer is the first block's).  A request whose rounded
    size exceeds 2A+12 is not served from it: it is served from the free
    remainder after the third block when it fits there, and [kmalloc]
    returns the null sentinel only when it exceeds the remainder too. *)
Theorem freed_neighbours_merge (fuel : nat) (first_then_second : bool)
  (a : Z) (hb : heap) :
  0 < a <= 4294967292 -> 3 * align4 a + 64 < 1048576 ->
  let A := align4 a in
  let n := S (S (S (S fuel))) in
  exists h,
    three_allocs_two_frees n first_then_second a (memory_init kernel_h hb)
    = Some h
    /\ block_size h 1048576 = 2 * A + 12
    /\ block_is_free h 1048576 = 1
    /\ (forall x, A < x <= 4294967292 -> align4 x <= 2 * A + 12 ->
          exists h', kmalloc n x h = Some (1048576 + 12, h'))
    /\ (forall y, 0 < y <= 4294967292 -> 2 * A + 12 < align4 y ->
          align4 y <= 1048528 - 3 * A ->
          exists h', kmalloc n y h = Some (1048576 + 3 * (A + 12) + 12, h'))
    /\ (forall y, 0 < y <= 4294967292 -> 2 * A + 12 < align4 y ->
          1048528 - 3 * A < align4 y ->
          kmalloc n y h = Some (NULL, h)).
Proof.
  intros Ha Hroom. cbv zeta.
  rewrite (first_two_freed fuel first_then_second a hb Ha Hroom).
  destruct (align4_rounds_up a ltac:(lia)) as [_ HA].
  set (A := align4 a) in *. clearbody A.
  set (first := if first_then_second then _ else _).
  set (second := if first_then_second then _ else _).
  assert (Horder : first = 1048576 /\ second = 1048576 + (A + 12)
                   \/ first = 1048576 + (A + 12) /\ second = 1048576)
    by (subst first second; destruct first_then_second; [left|right];
        split; reflexivity).
  clearbody first second.
  destruct (two_freed_layout first second A (total_allocated hb) hb
              ltac:(lia) Hroom Horder)
    as (Hfl & (S1 & F1 & N1) & (F3 & N3) & (S4 & F4 & N4)).
  set (h := two_freed first second A (total_allocated hb) hb) in *.
  clearbody h.
  assert (Hnz : forall z, 0 < z <= 4294967292 -> (wrap32 z =? 0) = false)
    by (intros z Hz; apply Z.eqb_neq; rewrite wrap32_small; lia).
  exists h. split_ands; try assumption; try reflexivity.
  - intros x Hx Hfits.
    destruct (align4_rounds_up x ltac:(lia)) as [_ HX].
    unfold kmalloc. rewrite Hnz, Hfl by lia.
    apply scan_takes; unfold NULL, HEADER; rewrite ?S1; lia.
  - intros y Hy Hbig Hfits.
    destruct (align4_rounds_up y ltac:(lia)) as [_ HY].
    unfold kmalloc. rewrite Hnz, Hfl by lia.
    rewrite scan_skip, N1 by (unfold NULL; lia).
    rewrite scan_skip, N3 by (unfold NULL; lia).
    replace (1048576 + 3 * (A + 12) + 12)
      with (1048576 + 3 * (A + 12) + HEADER) by reflexivity.
    apply scan_takes; unfold NULL, HEADER; rewrite ?S4; lia.
  - intros y Hy Hbig Hhuge.
    unfold kmalloc. rewrite Hnz, Hfl by lia.
    rewrite scan_skip, N1 by (unfold NULL; lia).
    rewrite scan_skip, N3 by (unfold NULL; lia).
    rewrite scan_skip, N4 by (unfold NULL; lia).
    apply scan_null.
Qed.

Lemma freed_neighbours_merge_witness :
  exists h,
    three_allocs_two_frees 4 true 64 (memory_init kernel_h (boot_heap ∅))
    = Some h
    /\ block_size h 1048576 = 140
    /\ (exists h', kmalloc 4 100 h = Some (1048588, h'))
    /\ (exists h', kmalloc 4 144 h = Some (1048816, h'))
    /\ kmalloc 4 1048400 h = Some (NULL, h).
Proof.
  assert (Ha : 0 < 64 <= 4294967292) by lia.
  assert (Hroom : 3 * align4 64 + 64 < 1048576) by (vm_compute; reflexivity).
  destruct (freed_neighbours_merge 0 true 64 (boot_heap ∅) Ha Hroom)
    as (h & Hrun & Hsize & _ & Hfit & Hrest & Hnull).
  exists h. split; [exact Hrun|]. split; [exact Hsize|].
  split; [|split].
  - apply (Hfit 100); [vm_compute; split; [reflexivity|discriminate]
                      |vm_compute; discriminate].
  - apply (Hrest 144); [lia|vm_compute; reflexivity|vm_compute; discriminate].
  - apply (Hnull 1048400); [lia|vm_compute; reflexivity|vm_compute; reflexivity].
Defined.

(** C10. For every heap state, [kfree(NULL)] changes nothing: memory (so
    every block's size, free flag and link), the list head and the
    allocated-byte counter are as before.  No step of the coalescing loop
    is run, so this holds for every bound on it. *)
Theorem kfree_null_is_noop (fuel : nat) (h : heap) :
  kfree fuel NULL h = Some h.
Proof. reflexivity. Qed.

(** *** First fit *)

(** Following [next] from [p], the scan passes the blocks [passed] and
    arrives at [q]. *)
Fixpoint leads (h : heap) (p : Z) (passed : list Z) (q : Z) : Prop :=
  match passed with
  | [] => p = q
  | b :: rest => p = b /\ b <> NULL /\ leads h (block_next h b) rest q
  end.

(** A block that cannot serve a request of [size] bytes. *)
Definition unfit (h : heap) (size b : Z) : Prop :=
  block_is_free h b = 0 \/ block_size h b < size.

Lemma scan_passes fuel size h passed :
  forall p q,
  leads h p passed q -> Forall (unfit h size) passed ->
  kmalloc_scan (length passed + fuel) size p h = kmalloc_scan fuel size q h.
Proof.
  induction passed as [|b rest IH]; intros p q Hleads Hunfit.
  - cbn in Hleads. subst q. reflexivity.
  - destruct Hleads as (-> & Hb & Hrest).
    apply Forall_cons in Hunfit as [Hu Hunfit].
    cbn [length Nat.add]. rewrite scan_skip by assumption.
    apply IH; assumption.
Qed.

(** [kmalloc] is first fit.  If the free list, followed from its head,
    passes only blocks that are in use or too small before it ends, the
    result is NULL and nothing has changed.  If it passes only such blocks
    before it comes to a free block that is large enough, the pointer
    returned is that block's payload, and the allocated-byte counter grows
    by the size the block is left with. *)
Theorem kmalloc_is_first_fit (fuel : nat) (R : Z) (h : heap)
  (passed : list Z) (q : Z) :
  wrap32 R <> 0 ->
  leads h (free_list h) passed q ->
  Forall (unfit h (align4 R)) passed ->
  (q = NULL -> kmalloc (length passed + S fuel) R h = Some (NULL, h))
  /\ (q <> NULL -> block_is_free h q <> 0 -> align4 R <= block_size h q ->
      exists h',
        kmalloc (length passed + S fuel) R h = Some (ptr_add q HEADER, h')
        /\ total_allocated h'
           = wrap32 (total_allocated h + block_size h' q)).
Proof.
  intros HR Hleads Hunfit. unfold kmalloc.
  apply Z.eqb_neq in HR. rewrite HR.
  rewrite (scan_passes _ _ _ _ _ _ Hleads Hunfit).
  split.
  - intros ->. reflexivity.
  - intros Hq Hfree Hfits. cbn [kmalloc_scan].
    apply Z.eqb_neq in Hq, Hfree. rewrite Hq, Hfree.
    apply Z.leb_le in Hfits. rewrite Hfits. cbn [negb andb]. cbv zeta.
    eexists. split; [reflexivity|].
    rewrite total_set_total. unfold block_size at 2. rewrite load_set_total.
    fold (block_size (store (q + 4) 0 h) q).
    destruct (wrap32 (align4 R + HEADER + 16)
              <? block_size (store (q + 4) 0 h) q);
      rewrite ?total_store; reflexivity.
Qed.

Lemma kmalloc_is_first_fit_witness :
  kmalloc 2 2000000 (memory_init kernel_h (boot_heap ∅))
  = Some (NULL, memory_init kernel_h (boot_heap ∅)).
Proof.
  assert (HR : wrap32 2000000 <> 0) by (vm_compute; discriminate).
  assert (Hleads : leads (memory_init kernel_h (boot_heap ∅))
                     (free_list (memory_init kernel_h (boot_heap ∅)))
                     [1048576] NULL).
  { cbn [leads]. split; [reflexivity|]. split; [discriminate|]. reflexivity. }
  assert (Hunfit : Forall (unfit (memory_init kernel_h (boot_heap ∅))
                             (align4 2000000)) [1048576]).
  { constructor; [|constructor]. right. vm_compute. reflexivity. }
  exact (proj1 (kmalloc_is_first_fit 0 2000000 _ [1048576] NULL
                  HR Hleads Hunfit) eq_refl).
Defined.

(** *** Allocation and release *)

(** On the fresh kernel heap, [kfree] of the block that [kmalloc] has
    just split off joins it with the remainder again: the list is one
    free block of the full size, and the allocated-byte counter is back
    where it was. *)
Theorem kfree_undoes_kmalloc (fuel : nat) (hb : heap) (R : Z) :
  0 < R <= 4294967292 ->
  align4 R + 2 * HEADER + 16 < KERNEL_HEAP_SIZE kernel_h ->
  exists p h1 h2,
    kmalloc (S fuel) R (memory_init kernel_h hb) = Some (p, h1)
    /\ p <> NULL
    /\ kfree (S (S fuel)) p h1 = Some h2
    /\ free_list h2 = KERNEL_HEAP_START kernel_h
    /\ block_size h2 (free_list h2) = KERNEL_HEAP_SIZE kernel_h - HEADER
    /\ block_is_free h2 (free_list h2) = 1
    /\ block_next h2 (free_list h2) = NULL
    /\ total_allocated h2 = wrap32 (total_allocated hb).
Proof.
  intros HR Hroom. change (KERNEL_HEAP_SIZE kernel_h) with 1048576 in *.
  change (KERNEL_HEAP_START kernel_h) with 1048576.
  destruct (align4_rounds_up R ltac:(lia)) as [_ HA].
  assert (Hnz : (wrap32 R =? 0) = false)
    by (apply Z.eqb_neq; rewrite wrap32_small; lia).
  rewrite memory_init_kernel. unfold kmalloc. rewrite Hnz.
  set (A := align4 R) in *. clearbody A.
  set (T := total_allocated hb). unfold HEADER in Hroom.
  replace (free_list (fresh hb)) with 1048576 by heap_solve.
  rewrite (scan_split _ A 1048576 (fresh hb) 1048564 NULL T) by heap_side.
  fold (one_block A T hb).
  do 3 eexists. split; [reflexivity|]. split; [unfold HEADER; discriminate|].
  rewrite (kfree_marks _ 1048576 (one_block A T hb) A (wrap32 (T + A)))
    by heap_side.
  replace (free_list (one_block A T hb)) with 1048576 by heap_solve.
  rewrite (coalesce_merge _ 1048576 _ (1048576 + 12 + A) A
             (1048564 - A - 12) NULL) by heap_side.
  rewrite coalesce_stop by heap_side.
  split; [reflexivity|].
  replace (free_list _) with 1048576 by heap_solve.
  split_ands; try heap_solve.
  unfold absorb. loads. unfold wrap32, T. Z.to_euclidean_division_equations; lia.
Qed.

Lemma kfree_undoes_kmalloc_witness :
  exists p h1 h2,
    kmalloc 1 100 (memory_init kernel_h (boot_heap ∅)) = Some (p, h1)
    /\ kfree 2 p h1 = Some h2
    /\ block_size h2 (free_list h2) = 1048564
    /\ total_allocated h2 = 0.
Proof.
  assert (H1 : 0 < 100 <= 4294967292) by lia.
  assert (H2 : align4 100 + 2 * HEADER + 16 < KERNEL_HEAP_SIZE kernel_h)
    by (vm_compute; reflexivity).
  destruct (kfree_undoes_kmalloc 0 (boot_heap ∅) 100 H1 H2)
    as (p & h1 & h2 & Hm & _ & Hf & _ & Hs & _ & _ & Ht).
  exists p, h1, h2. split; [exact Hm|]. split; [exact Hf|].
  split; [exact Hs|exact Ht].
Defined.

(** *** Rounding overflow *)

(** A request within three bytes of 2^32 rounds to 0, so it is granted:
    the first block is split with size 0, and the pointer returned is the
    address of the header of the free block that follows it. *)
Theorem huge_request_rounds_to_nothing (fuel : nat) (hb : heap) (R : Z) :
  4294967292 < R < 4294967296 ->
  align4 R = 0
  /\ exists p h,
       kmalloc (S fuel) R (memory_init kernel_h hb) = Some (p, h)
       /\ p <> NULL
       /\ block_size h (free_list h) = 0
       /\ block_next h (free_list h) = p
       /\ block_is_free h p = 1
       /\ block_size h p = KERNEL_HEAP_SIZE kernel_h - 2 * HEADER.
Proof.
  intros HR.
  assert (HA : align4 R = 0).
  { assert (Hcase : R = 4294967293 \/ R = 4294967294 \/ R = 4294967295)
      by lia.
    destruct Hcase as [-> | [-> | ->]]; reflexivity. }
  split; [exact HA|].
  assert (Hnz : (wrap32 R =? 0) = false)
    by (apply Z.eqb_neq; rewrite wrap32_small; lia).
  rewrite memory_init_kernel. unfold kmalloc. rewrite Hnz, HA.
  set (T := total_allocated hb).
  replace (free_list (fresh hb)) with 1048576 by heap_solve.
  rewrite (scan_split _ 0 1048576 (fresh hb) 1048564 NULL T) by heap_side.
  do 2 eexists. split; [reflexivity|]. split; [unfold HEADER; discriminate|].
  replace (free_list _) with 1048576 by heap_solve.
  change (KERNEL_HEAP_SIZE kernel_h) with 1048576.
  split_ands; heap_solve.
Qed.

Lemma huge_request_rounds_to_nothing_witness :
  align4 4294967295 = 0.
Proof.
  exact (proj1 (huge_request_rounds_to_nothing 0 (boot_heap ∅) 4294967295
                  ltac:(lia))).
Defined.

End MemoryFacts.

(** ** The process list *)

Section ProcessFacts.

Import Memory Screen Process.

(** The characters shown in the first [n] cells of row [r]. *)
Definition row_text (scr : screen) (r : Z) (n : nat) : list Z :=
  map (fun c : nat => Z.land (peek scr (r * 80 + Z.of_nat c)) 255) (seq 0 n).

(** The process manager after [memory_init] and [process_init]. *)
Definition fresh_procs : procs :=
  process_init (boot_procs (memory_init kernel_h (boot_heap ∅))).

(** Creates the processes named in [names], in order; the result lists the
    returned ids. *)
Fixpoint create_all (fuel : nat) (entry : Z) (names : list string) (p : procs)
  : option (list Z * procs) :=
  match names with
  | [] => Some ([], p)
  | name :: rest =>
      match process_create fuel entry (bytes_of name) p with
      | None => None
      | Some (id, p') =>
          match create_all fuel entry rest p' with
          | None => None
          | Some (ids, p'') => Some (id :: ids, p'')
          end
      end
  end.

(** A line of text as a row of [n] cells shows it: padded with spaces. *)
Definition padded (n : nat) (s : string) : list Z :=
  take n (bytes_of s ++ replicate n 32).

(** What creating [names] and then listing on a cleared screen gives: the
    ids returned, the first six rows of the screen and the cursor. *)
Definition create_and_list (entry : Z) (names : list string)
  : option (list Z * list (list Z) * (Z * Z)) :=
  match create_all 8 entry names fresh_procs with
  | None => None
  | Some (ids, p) =>
      match process_list 40 p (screen_clear (boot_screen ∅)) with
      | None => None
      | Some scr =>
          Some (ids,
                map (fun r => row_text scr r 18) [0; 1; 2; 3; 4; 5],
                (cursor_row scr, cursor_col scr))
      end
  end.

(** C8. On the freshly initialised process manager and kernel heap,
    creating "a", "b", "c" in that order returns the ids 1, 2, 3, and
    [process_list] then prints, under its two header lines, the processes
    in the order c, b, a: most recently created first. *)
Theorem ids_ascend_listing_descends (entry : Z) :
  create_and_list entry ["a"; "b"; "c"]
  = Some ([1; 2; 3],
          [padded 18 "PID  State    Name";
           padded 18 "---  -------  ----";
           padded 18 "3    READY   c";
           padded 18 "2    READY   b";
           padded 18 "1    READY   a";
           padded 18 ""],
          (5, 0)).
Proof. vm_compute. reflexivity. Qed.

(** *** Names *)

Lemma copy_name_spec name proc n :
  forall i h,
  Forall (fun c => c <> 0) name ->
  0 <= i <= Z.of_nat (length name) ->
  let k := Z.min (Z.of_nat n) (Z.of_nat (length name) - i) in
  fst (copy_name n i name proc h) = i + k
  /\ forall a,
       load (snd (copy_name n i name proc h)) a
       = if decide (proc + OFF_NAME + i <= a < proc + OFF_NAME + i + k)
         then nth (Z.to_nat (a - proc - OFF_NAME)) name 0
         else load h a.
Proof.
  induction n as [|n IH]; intros i h Hname Hi; cbv zeta.
  - cbn [copy_name fst snd]. split; [lia|].
    intros a. destruct (decide _); [lia|reflexivity].
  - cbn [copy_name].
    destruct (Z.eq_dec i (Z.of_nat (length name))) as [Hend|Hmore].
    + rewrite nth_overflow by lia. change (0 =? 0) with true.
      cbn [fst snd]. split; [lia|].
      intros a. destruct (decide _); [lia|reflexivity].
    + assert (Hc : nth (Z.to_nat i) name 0 <> 0).
      { assert (Hin : (Z.to_nat i < length name)%nat) by lia.
        exact (proj1 (Forall_nth _ 0 name) Hname _ Hin). }
      apply Z.eqb_neq in Hc. rewrite Hc.
      destruct (IH (i + 1)
                  (Memory.store (proc + OFF_NAME + i) (nth (Z.to_nat i) name 0) h)
                  Hname ltac:(lia)) as [Hfst Hload].
      rewrite Hfst. split; [lia|].
      intros a. rewrite Hload, load_store.
      repeat destruct (decide _); try lia; try reflexivity.
      subst a. f_equal. lia.
Qed.

Lemma string_at_reads l :
  forall fuel h a,
  Forall (fun c => c <> 0) l ->
  (length l < fuel)%nat ->
  (forall j, (j < length l)%nat -> load h (a + Z.of_nat j) = nth j l 0) ->
  load h (a + Z.of_nat (length l)) = 0 ->
  string_at fuel h a = l.
Proof.
  induction l as [|c l IH]; intros fuel h a Hnz Hfuel Hbytes Hend.
  - destruct fuel; [lia|]. cbn [string_at]. cbn [length] in Hend.
    rewrite Z.add_0_r in Hend. rewrite Hend. reflexivity.
  - destruct fuel; [cbn in Hfuel; lia|]. cbn [string_at].
    apply Forall_cons in Hnz as [Hc Hnz].
    pose proof (Hbytes 0%nat ltac:(cbn; lia)) as H0.
    rewrite Z.add_0_r in H0. cbn [nth] in H0. rewrite H0.
    apply Z.eqb_neq in Hc. rewrite Hc. f_equal.
    apply IH.
    + exact Hnz.
    + cbn [length] in Hfuel. lia.
    + intros j Hj. specialize (Hbytes (S j) ltac:(cbn; lia)).
      cbn [nth] in Hbytes. rewrite <- Hbytes. f_equal. lia.
    + rewrite <- Hend. f_equal. cbn [length]. lia.
Qed.

(** The name of a process is the first 31 characters of the string given
    to [process_create]: the copy loop and the terminator after it store
    at most 32 bytes, all of them inside the [name] field, and the string
    read back from the field is the name cut to 31 characters. *)
Theorem name_is_cut_to_31_characters (name : list Z) (proc : Z) (h : heap) :
  Forall (fun c => c <> 0) name ->
  let i := fst (copy_name 31 0 name proc h) in
  let h' := Memory.store (proc + OFF_NAME + i) 0
              (snd (copy_name 31 0 name proc h)) in
  i = Z.min 31 (Z.of_nat (length name))
  /\ string_at 32 h' (proc + OFF_NAME) = take 31 name
  /\ forall a, ~ (proc + OFF_NAME <= a < proc + OFF_NAME + 32) ->
       load h' a = load h a.
Proof.
  intros Hname. cbv zeta.
  destruct (copy_name_spec name proc 31 0 h Hname ltac:(lia)) as [Hi Hload].
  cbv zeta in Hi, Hload. rewrite Z.sub_0_r, Z.add_0_l in Hi.
  rewrite Z.sub_0_r, Z.add_0_r in Hload.
  change (Z.of_nat 31) with 31 in *.
  rewrite Hi. split; [reflexivity|]. split.
  - apply string_at_reads.
    + apply Forall_take, Hname.
    + rewrite length_take. lia.
    + intros j Hj. rewrite length_take in Hj.
      rewrite load_store, decide_False by lia.
      rewrite Hload, decide_True by lia.
      replace (Z.to_nat (proc + OFF_NAME + Z.of_nat j - proc - OFF_NAME))
        with j by lia.
      rewrite <- (take_drop 31 name) at 1.
      rewrite app_nth1 by (rewrite length_take; lia). reflexivity.
    + rewrite load_store, decide_True; [reflexivity|].
      rewrite length_take. lia.
  - intros a Ha. rewrite load_store, decide_False by lia.
    rewrite Hload, decide_False by lia. reflexivity.
Qed.

Lemma name_is_cut_to_31_characters_witness :
  string_at 32
    (Memory.store (1000 + OFF_NAME
                   + fst (copy_name 31 0 (bytes_of "idle") 1000 (boot_heap ∅)))
       0 (snd (copy_name 31 0 (bytes_of "idle") 1000 (boot_heap ∅))))
    (1000 + OFF_NAME)
  = take 31 (bytes_of "idle").
Proof.
  assert (Hname : Forall (fun c => c <> 0) (bytes_of "idle"))
    by (repeat constructor; discriminate).
  exact (proj1 (proj2 (name_is_cut_to_31_characters (bytes_of "idle") 1000
                         (boot_heap ∅) Hname))).
Defined.

(** *** Nothing is ever current *)

Lemma process_create_keeps_current fuel entry name p r p' :
  process_create fuel entry name p = Some (r, p') ->
  current_process p' = current_process p.
Proof.
  unfold process_create.
  destruct (kmalloc fuel SIZEOF_PROCESS (kheap p)) as [[proc h1]|];
    [|discriminate].
  destruct (proc =? NULL); [intros [= <- <-]; reflexivity|].
  destruct (kmalloc fuel PROCESS_STACK_SIZE h1) as [[stack h2]|];
    [|discriminate].
  cbv zeta.
  destruct (load _ _ =? NULL).
  - destruct (kfree _ _ _); [|discriminate]. intros [= <- <-]. reflexivity.
  - destruct (copy_name _ _ _ _ _). intros [= <- <-]. reflexivity.
Qed.

(** No function makes a process current: after [process_init] and any
    number of [process_create] calls [current_process] is still NULL, so
    [process_exit] marks nothing terminated and prints nothing. *)
Theorem process_exit_finds_no_current_process (fuel : nat) (entry : Z)
  (names : list string) (p0 : procs) (ids : list Z) (p : procs)
  (scr : screen) :
  create_all fuel entry names (process_init p0) = Some (ids, p) ->
  current_process p = NULL /\ process_exit p scr = (p, scr).
Proof.
  intros Hall.
  assert (Hcur : current_process p = NULL).
  { assert (H0 : current_process (process_init p0) = NULL) by reflexivity.
    generalize dependent (process_init p0). clear p0.
    revert ids. induction names as [|name names IH]; intros ids q Hall Hq.
    - cbn in Hall. injection Hall as <- <-. exact Hq.
    - cbn [create_all] in Hall.
      destruct (process_create fuel entry (bytes_of name) q)
        as [[id q']|] eqn:Hc; [|discriminate].
      destruct (create_all fuel entry names q') as [[ids' q'']|] eqn:Hr;
        [|discriminate].
      injection Hall as <- <-.
      apply (IH ids' q' Hr).
      rewrite (process_create_keeps_current _ _ _ _ _ _ Hc). exact Hq. }
  split; [exact Hcur|].
  unfold process_exit. rewrite Hcur. reflexivity.
Qed.

Lemma process_exit_finds_no_current_process_witness :
  exists p, create_all 8 0 ["a"; "b"] fresh_procs = Some ([1; 2], p)
            /\ current_process p = NULL.
Proof.
  destruct (create_all 8 0 ["a"; "b"] fresh_procs) as [[ids p]|] eqn:E;
    [|vm_compute in E; discriminate E].
  exists p.
  destruct (process_exit_finds_no_current_process 8 0 ["a"; "b"]
              (boot_procs (memory_init kernel_h (boot_heap ∅)))
              ids p (screen_clear (boot_screen ∅)) E) as [Hcur _].
  split; [|exact Hcur].
  assert (Hids : ids = [1; 2]).
  { assert (H : fst <$> create_all 8 0 ["a"; "b"] fresh_procs = Some [1; 2])
      by (vm_compute; reflexivity).
    rewrite E in H. cbn in H. congruence. }
  rewrite Hids. reflexivity.
Defined.

End ProcessFacts.
